(** * team-coup-ui: the game-view interpretation and eligibility engine

    A shallow embedding of [src/types.ts], of the render logic of
    [src/components/GameLayout.tsx] (seat rotation, narration, the per-phase
    [ActionPanel], target selection) and of the polling loop of [src/App.tsx],
    followed by the properties of the client that the specification states.

    A player lookup [view.players[id]] is kept as the key lookup
    [players view !! id]; section 17 says for which ids that is what the
    code reads, and what "not found" means. *)

From Stdlib Require Import ZArith Lia.
From stdpp Require Import base strings list gmap.

Set Default Proof Using "Type".

(** ** 1. Data model ([src/types.ts]) *)

Inductive GamePhase :=
| lobby | action_selection | block_window | challenge_window
| swap_choice | loss_choice | game_over.

Inductive GameMode := normal_team | super_team.

Inductive Team := A | B.

#[global] Instance GamePhase_eq_dec : EqDecision GamePhase.
Proof. solve_decision. Defined.
#[global] Instance GameMode_eq_dec : EqDecision GameMode.
Proof. solve_decision. Defined.
#[global] Instance Team_eq_dec : EqDecision Team.
Proof. solve_decision. Defined.

(** JavaScript numbers that the server fills with integers are kept in [Z]. *)
Record PublicPlayer := {
  player_id : string;
  name : string;
  team : Team;
  coins : Z;
  alive : bool;
  num_cards : Z;
  cards : option (list string)
}.

Record PublicAction := {
  actor_id : string;
  action : string;
  target_id : option string
}.

Record PublicBlock := {
  blocker_id : string;
  block_type : string
}.

Record GameView := {
  game_id : string;
  mode : GameMode;
  phase : GamePhase;
  you : string;
  current_player : option string;
  turn_order : list string;
  players : gmap string PublicPlayer;
  winner_team : option Team;
  logs : list string;
  pending_action : option PublicAction;
  pending_block : option PublicBlock;
  exchange_pool_size : Z;
  exchange_cards : option (list string);
  loss_choice_player_id : option string;
  loss_choice_cards : option (list string);
  deck_size : Z;
  revealed_cards : list string
}.

(** ** 2. JavaScript primitives used by the component *)

(** Reading a property of [undefined] raises a [TypeError]; a render that
    raises produces no element at all. *)
Inductive result (X : Type) :=
| Ok (x : X)
| TypeError.
Arguments Ok {X} x.
Arguments TypeError {X}.

Definition bind {X Y : Type} (r : result X) (k : X → result Y) : result Y :=
  match r with
  | Ok x => k x
  | TypeError => TypeError
  end.

(** Truthiness of a [string | null]: [null] and the empty string are falsy. *)
Definition truthy (s : option string) : bool :=
  match s with
  | Some s => negb (bool_decide (s = EmptyString))
  | None => false
  end.

(** [a === b] for a [string | null] against a [string]. *)
Definition seq_opt (a : option string) (b : string) : bool :=
  bool_decide (a = Some b).

(** [Array.prototype.indexOf]: first position of [x], or [-1]. *)
Fixpoint indexOf_from (l : list string) (x : string) (i : Z) : Z :=
  match l with
  | [] => (-1)%Z
  | y :: l' => if bool_decide (y = x) then i else indexOf_from l' x (i + 1)%Z
  end.

Definition indexOf (l : list string) (x : string) : Z := indexOf_from l x 0.

(** [Array.prototype.slice(start, end)]; a negative bound counts from the
    end, and both bounds are clamped to the array. *)
Definition clamp_index (len i : Z) : Z :=
  if (i <? 0)%Z then Z.max (len + i) 0 else Z.min i len.

Definition slice {X : Type} (l : list X) (start : Z) (stop : Z) : list X :=
  let len := Z.of_nat (length l) in
  let k := clamp_index len start in
  let final := clamp_index len stop in
  take (Z.to_nat (final - k)) (drop (Z.to_nat k) l).

(** [slice(start)] is [slice(start, length)]. *)
Definition slice_from {X : Type} (l : list X) (start : Z) : list X :=
  slice l start (Z.of_nat (length l)).

(** ** 3. Seat rotation ([GameLayout], lines 55-65) *)

Definition rotatedIds (orderedIds : list string) (you_ : PublicPlayer)
  : list string :=
  let youIndex := indexOf orderedIds (player_id you_) in
  if (youIndex =? -1)%Z then orderedIds
  else slice_from orderedIds youIndex ++ slice orderedIds 0 youIndex.

Definition seats (view : GameView) (you_ : PublicPlayer) : list PublicPlayer :=
  omap (fun id => players view !! id) (rotatedIds (turn_order view) you_).

(** ** 4. Narration ([formatActionPhrase], [humanAction],
       [buildCurrentActionSummary]) *)

Definition humanAction (a : string) : string :=
  if bool_decide (a = "income") then "income"
  else if bool_decide (a = "foreign_aid") then "Foreign Aid"
  else if bool_decide (a = "tax") then "Duke"
  else if bool_decide (a = "super_tax") then "Super Duke"
  else if bool_decide (a = "steal") then "Captain"
  else if bool_decide (a = "super_steal") then "Super Captain"
  else if bool_decide (a = "exchange") then "Ambassador"
  else if bool_decide (a = "super_exchange") then "Super Ambassador"
  else if bool_decide (a = "assassinate") then "Assassin"
  else if bool_decide (a = "super_assassinate") then "Super Assassin"
  else if bool_decide (a = "coup") then "Coup"
  else if bool_decide (a = "super_coup") then "Super Coup"
  else a.

Definition formatActionPhrase (base a : string) (targetName : option string)
  : string :=
  match targetName with
  | None => base
  | Some t =>
      if negb (truthy targetName) then base
      else if bool_decide (a = "steal") || bool_decide (a = "super_steal")
      then base +:+ " from " +:+ t
      else base +:+ " on " +:+ t
  end.

(** [id && view.players[id] ? view.players[id] : null] *)
Definition lookupTarget (view : GameView) (id : option string)
  : option PublicPlayer :=
  match id with
  | Some i => if truthy id then players view !! i else None
  | None => None
  end.

Definition buildCurrentActionSummary (view : GameView) : option string :=
  match pending_action view, pending_block view with
  | Some pa, Some pb =>
      match players view !! blocker_id pb, players view !! actor_id pa with
      | Some blocker, Some actor =>
          let targetName := name <$> lookupTarget view (target_id pa) in
          let base := humanAction (action pa) in
          let actionPhrase := formatActionPhrase base (action pa) targetName in
          Some (name blocker +:+ " attempts to block " +:+ name actor
                +:+ "'s " +:+ actionPhrase)
      | _, _ => None
      end
  | Some pa, None =>
      match players view !! actor_id pa with
      | Some actor =>
          let targetName := name <$> lookupTarget view (target_id pa) in
          let base := humanAction (action pa) in
          let phrase := formatActionPhrase base (action pa) targetName in
          Some (name actor +:+ " attempts " +:+ phrase)
      | None => None
      end
  | None, _ => None
  end.

(** ** 5. Rendered output

    A rendered panel is kept as the text it shows and the buttons it holds;
    a button is its click handler and its [disabled] attribute.  Styling is
    dropped. *)

Inductive Control :=
| onStartGame
| selectOrUseTargetOf (a : string)
| onBlock (bt : string)
| onChallenge
| onNoChallenge
| onNoBlock.

#[global] Instance Control_eq_dec : EqDecision Control.
Proof. solve_decision. Defined.

Record Button := {
  onClick : Control;
  disabled : bool
}.

#[global] Instance Button_eq_dec : EqDecision Button.
Proof. solve_decision. Defined.

Inductive Element :=
| LobbyPanel (playerCount : nat) (buttons : list Button)
| GameOverPanel (winner : option Team)
| SwapChoicePanel (view : GameView) (you_ : PublicPlayer)
| LossChoicePanel (view : GameView) (you_ : PublicPlayer)
| Notice (text : string)
| Prompt (text : string) (buttons : list Button)
| ActionGrid (turnText targetText : string) (buttons : list Button).

(** The buttons that [ActionPanel] itself puts on the page. *)
Definition buttons_of (e : option Element) : list Button :=
  match e with
  | Some (LobbyPanel _ bs) | Some (Prompt _ bs) | Some (ActionGrid _ _ bs) => bs
  | _ => []
  end.

(** A control is offered when a button carrying it is rendered, and enabled
    when such a button is rendered without [disabled]. *)
Definition offered (c : Control) (e : option Element) : bool :=
  bool_decide (c ∈ onClick <$> buttons_of e).

Definition enabled (c : Control) (e : option Element) : bool :=
  bool_decide (Build_Button c false ∈ buttons_of e).

Definition when (b : bool) (bs : list Button) : list Button :=
  if b then bs else [].

(** ** 6. [ActionPanel] *)

Definition targetNameForViewer (view : GameView) (you_ : PublicPlayer)
    (tid : option string) : option string :=
  match lookupTarget view tid with
  | Some targetPlayer =>
      if bool_decide (player_id targetPlayer = player_id you_)
      then Some "you" else Some (name targetPlayer)
  | None => None
  end.

Definition challengeButtons : list Button :=
  [ Build_Button onChallenge false; Build_Button onNoChallenge false ].

Definition challengeResult (text : string) (canChallenge : bool)
  : option Element :=
  if negb canChallenge then Some (Notice text)
  else Some (Prompt (text +:+ " Do you want to challenge?") challengeButtons).

Definition challengePanel (view : GameView) (you_ : PublicPlayer)
  : option Element :=
  match pending_action view, pending_block view with
  | None, None => None
  | Some pa, Some pb =>
      match players view !! blocker_id pb, players view !! actor_id pa with
      | Some blocker, Some actor =>
          let base := humanAction (action pa) in
          let actionPhrase :=
            formatActionPhrase base (action pa)
              (targetNameForViewer view you_ (target_id pa)) in
          let isYouBlocker := bool_decide (player_id blocker = player_id you_) in
          let isYouActor := bool_decide (player_id actor = player_id you_) in
          let blockerSameTeam := bool_decide (team blocker = team you_) in
          let actorLabel :=
            if isYouActor then "your" else name actor +:+ "'s" in
          if isYouBlocker then
            challengeResult
              ("You are attempting to block " +:+ actorLabel +:+ " "
               +:+ actionPhrase +:+ ".") false
          else if blockerSameTeam then
            challengeResult
              ("Your teammate " +:+ name blocker +:+ " is attempting to block "
               +:+ actorLabel +:+ " " +:+ actionPhrase +:+ ".") false
          else
            challengeResult
              ("Opponent " +:+ name blocker +:+ " is attempting to block "
               +:+ actorLabel +:+ " " +:+ actionPhrase +:+ ".") (alive you_)
      | _, _ => None
      end
  | Some pa, None =>
      match players view !! actor_id pa with
      | Some actor =>
          let base := humanAction (action pa) in
          let phrase :=
            formatActionPhrase base (action pa)
              (targetNameForViewer view you_ (target_id pa)) in
          let isYouActor := bool_decide (player_id actor = player_id you_) in
          let actorSameTeam := bool_decide (team actor = team you_) in
          if isYouActor then
            challengeResult ("You are attempting " +:+ phrase +:+ ".") false
          else if actorSameTeam then
            challengeResult
              ("Your teammate " +:+ name actor +:+ " is attempting "
               +:+ phrase +:+ ".") false
          else
            challengeResult
              ("Opponent " +:+ name actor +:+ " is attempting "
               +:+ phrase +:+ ".") (alive you_)
      | None => None
      end
  | None, Some _ => None
  end.

Definition isTargetedAction (a : string) : bool :=
  bool_decide (a ∈ ["steal"; "super_steal"; "assassinate";
                    "super_assassinate"; "coup"]).

Definition isTarget (act : PublicAction) (you_ : PublicPlayer) : bool :=
  seq_opt (target_id act) (player_id you_).

(** [actor && actor.team === you.team] *)
Definition isSameTeam (view : GameView) (act : PublicAction)
    (you_ : PublicPlayer) : bool :=
  match players view !! actor_id act with
  | Some actor => bool_decide (team actor = team you_)
  | None => false
  end.

Definition canBlockForeignAid (view : GameView) (act : PublicAction)
    (you_ : PublicPlayer) : bool :=
  bool_decide (action act = "foreign_aid")
  && negb (isSameTeam view act you_)
  && bool_decide (is_Some (players view !! actor_id act)).

Definition canBlockSteal (act : PublicAction) (you_ : PublicPlayer) : bool :=
  (bool_decide (action act = "steal")
   || bool_decide (action act = "super_steal"))
  && isTarget act you_.

Definition canBlockAssassinate (act : PublicAction) (you_ : PublicPlayer)
  : bool :=
  (bool_decide (action act = "assassinate")
   || bool_decide (action act = "super_assassinate"))
  && isTarget act you_.

Definition canBlockCoup (view : GameView) (act : PublicAction)
    (you_ : PublicPlayer) : bool :=
  bool_decide (mode view = super_team)
  && bool_decide (action act = "coup")
  && isTarget act you_
  && (2 <=? num_cards you_)%Z.

(** The buttons of the full block controls, in page order. *)
Definition blockButtons (view : GameView) (act : PublicAction)
    (you_ : PublicPlayer) : list Button :=
  when (canBlockForeignAid view act you_)
    [Build_Button (onBlock "block_foreign_aid") false]
  ++ when (canBlockSteal act you_)
       [Build_Button (onBlock "block_steal_captain") false;
        Build_Button (onBlock "block_steal_ambassador") false]
  ++ when (canBlockAssassinate act you_)
       [Build_Button (onBlock "block_assassinate") false]
  ++ when (canBlockCoup view act you_)
       [Build_Button (onBlock "block_coup") false]
  ++ [Build_Button onNoBlock false].

Definition blockPanel (view : GameView) (you_ : PublicPlayer)
  : option Element :=
  match pending_action view with
  | None => None
  | Some act =>
      let actor := players view !! actor_id act in
      let actorName := default "Someone" (name <$> actor) in
      let human :=
        formatActionPhrase (humanAction (action act)) (action act)
          (targetNameForViewer view you_ (target_id act)) in
      if isSameTeam view act you_ && bool_decide (is_Some actor) then
        let youAreActor :=
          bool_decide (player_id <$> actor = Some (player_id you_)) in
        Some (Notice
          (if youAreActor
           then "You are performing " +:+ human
                +:+ ". Opponents may choose to block."
           else "Your teammate " +:+ actorName +:+ " is performing "
                +:+ human +:+ ". Opponents may choose to block."))
      else if isTargetedAction (action act) && negb (isTarget act you_) then
        Some (Notice
          ("Opponent " +:+ actorName +:+ " is performing " +:+ human
           +:+ ". Only the targeted player can decide to block or let it through."))
      else
        Some (Prompt
          ("Opponent " +:+ actorName +:+ " is performing " +:+ human +:+ ".")
          (blockButtons view act you_))
  end.

Definition actionBtn (a : string) (dis : bool) : Button :=
  Build_Button (selectOrUseTargetOf a) dis.

Definition actionButtons (view : GameView) (you_ : PublicPlayer)
    (canAct : bool) (selectedTarget : option string) (targetHasCoins : bool)
  : list Button :=
  let superMode := bool_decide (mode view = super_team) in
  let canUseSupers := (2 <=? num_cards you_)%Z && superMode in
  let noTarget := negb (truthy selectedTarget) in
  [ actionBtn "income" (negb canAct);
    actionBtn "foreign_aid" (negb canAct);
    actionBtn "coup" (negb canAct || (coins you_ <? 7)%Z || noTarget) ]
  ++ when superMode
       [ actionBtn "super_coup"
           (negb canAct || (coins you_ <? 12)%Z || noTarget) ]
  ++ [ actionBtn "assassinate"
         (negb canAct || (coins you_ <? 3)%Z || noTarget) ]
  ++ when superMode
       [ actionBtn "super_assassinate"
           (negb canAct || (coins you_ <? 3)%Z || noTarget
            || negb canUseSupers) ]
  ++ [ actionBtn "steal" (negb canAct || noTarget || negb targetHasCoins) ]
  ++ when superMode
       [ actionBtn "super_steal"
           (negb canAct || noTarget || negb targetHasCoins
            || negb canUseSupers) ]
  ++ [ actionBtn "tax" (negb canAct) ]
  ++ when superMode [ actionBtn "super_tax" (negb canAct || negb canUseSupers) ]
  ++ [ actionBtn "exchange" (negb canAct) ]
  ++ when superMode
       [ actionBtn "super_exchange" (negb canAct || negb canUseSupers) ].

Definition actionSelectionPanel (view : GameView) (you_ : PublicPlayer)
    (canAct : bool) (selectedTarget : option string) (targetHasCoins : bool)
  : result (option Element) :=
  let turnText :=
    if seq_opt (current_player view) (player_id you_) then "Your turn."
    else "Waiting for "
         +:+ default "someone"
               (name <$> (players view
                          !! default EmptyString (current_player view)))
         +:+ " to act." in
  (* [selectedTarget ? view.players[selectedTarget].name : "click ..."] *)
  let targetText :=
    match selectedTarget with
    | Some t =>
        if truthy selectedTarget then
          match players view !! t with
          | Some p => Ok ("Target: " +:+ name p)
          | None => TypeError
          end
        else Ok "Target: click an enemy seat for Coup/Assassin/Captain"
    | None => Ok "Target: click an enemy seat for Coup/Assassin/Captain"
    end in
  bind targetText (fun tt =>
    Ok (Some (ActionGrid turnText tt
                (actionButtons view you_ canAct selectedTarget
                   targetHasCoins)))).

Definition ActionPanel (view : GameView) (you_ : PublicPlayer)
    (canAct : bool) (selectedTarget : option string) (targetHasCoins : bool)
  : result (option Element) :=
  match phase view with
  | lobby =>
      Ok (Some (LobbyPanel (size (players view))
                  [Build_Button onStartGame false]))
  | game_over => Ok (Some (GameOverPanel (winner_team view)))
  | swap_choice => Ok (Some (SwapChoicePanel view you_))
  | loss_choice => Ok (Some (LossChoicePanel view you_))
  | challenge_window => Ok (challengePanel view you_)
  | block_window => Ok (blockPanel view you_)
  | action_selection =>
      actionSelectionPanel view you_ canAct selectedTarget targetHasCoins
  end.

(** ** 7. [GameLayout]: derived values, handlers and the rendered page *)

Definition targetRequiredActions : list string :=
  ["coup"; "assassinate"; "super_assassinate"; "steal"; "super_steal";
   "super_coup"].

Definition canAct (view : GameView) : bool :=
  let isGameOver := bool_decide (phase view = game_over) in
  let isYourTurn := bool_decide (current_player view = Some (you view)) in
  bool_decide (phase view = action_selection) && isYourTurn && negb isGameOver.

Definition targetHasCoins (view : GameView) (selectedTarget : option string)
  : bool :=
  match lookupTarget view selectedTarget with
  | Some selectedTargetPlayer => (0 <? coins selectedTargetPlayer)%Z
  | None => false
  end.

(** Commands handed to [App] ([onAction], [onBlock], ...). *)
Inductive Command :=
| sendAction (a : string) (target : option string)
| sendStartGame
| sendBlock (bt : string)
| sendChallenge
| sendNoChallenge
| sendNoBlock.

(** [selectOrUseTarget]: the commands sent and the new [selectedTarget]. *)
Definition selectOrUseTarget (selectedTarget : option string) (a : string)
  : list Command * option string :=
  if bool_decide (a ∈ targetRequiredActions) then
    if negb (truthy selectedTarget) then ([], selectedTarget)
    else ([sendAction a selectedTarget], None)
  else ([sendAction a None], selectedTarget).

(** [handleSeatClick]: the new [selectedTarget]. *)
Definition handleSeatClick (you_ player : PublicPlayer)
    (prev : option string) : option string :=
  if negb (alive player) then prev
  else if bool_decide (team player = team you_) then prev
  else if bool_decide (player_id player = player_id you_) then prev
  else if bool_decide (prev = Some (player_id player)) then None
  else Some (player_id player).

Record Layout := {
  l_you : PublicPlayer;
  l_seats : list PublicPlayer;
  l_summary : option string;
  l_panel : option Element
}.

(** [const you = view.players[view.you]] is [undefined] for a viewer that is
    not in [players]; the next statement reads [you.player_id]. *)
Definition GameLayout (view : GameView) (selectedTarget : option string)
  : result Layout :=
  match players view !! you view with
  | None => TypeError
  | Some you_ =>
      bind (ActionPanel view you_ (canAct view) selectedTarget
              (targetHasCoins view selectedTarget))
        (fun panel =>
           Ok {| l_you := you_;
                 l_seats := seats view you_;
                 l_summary := buildCurrentActionSummary view;
                 l_panel := panel |})
  end.

(** The component over time: [selectedTarget] is [useState] of [GameLayout],
    kept while the component stays mounted; [view] is a prop that [App]
    replaces at every poll or command response. *)
Record UIState := {
  ui_view : GameView;
  ui_selected : option string
}.

Inductive UIEvent :=
| SeatClick (index : nat)
| ButtonClick (c : Control)
| Snapshot (v : GameView).

Definition clickControl (sel : option string) (c : Control)
  : list Command * option string :=
  match c with
  | onStartGame => ([sendStartGame], sel)
  | selectOrUseTargetOf a => selectOrUseTarget sel a
  | onBlock bt => ([sendBlock bt], sel)
  | onChallenge => ([sendChallenge], sel)
  | onNoChallenge => ([sendNoChallenge], sel)
  | onNoBlock => ([sendNoBlock], sel)
  end.

(** One event: a click reaches its handler only on a seat that is rendered
    or on a button that is rendered and not disabled. *)
Definition ui_step (s : UIState) (e : UIEvent) : list Command * UIState :=
  match e with
  | Snapshot v => ([], {| ui_view := v; ui_selected := ui_selected s |})
  | SeatClick i =>
      match GameLayout (ui_view s) (ui_selected s) with
      | Ok page =>
          match l_seats page !! i with
          | Some p =>
              ([], {| ui_view := ui_view s;
                      ui_selected :=
                        handleSeatClick (l_you page) p (ui_selected s) |})
          | None => ([], s)
          end
      | TypeError => ([], s)
      end
  | ButtonClick c =>
      match GameLayout (ui_view s) (ui_selected s) with
      | Ok page =>
          if enabled c (l_panel page) then
            let '(cmds, sel) := clickControl (ui_selected s) c in
            (cmds, {| ui_view := ui_view s; ui_selected := sel |})
          else ([], s)
      | TypeError => ([], s)
      end
  end.

Fixpoint ui_run (s : UIState) (es : list UIEvent) : UIState :=
  match es with
  | [] => s
  | e :: es' => ui_run (ui_step s e).2 es'
  end.

(** ** 8. The polling loop ([App], lines 34-54)

    [loop] calls [fetchState] and suspends; when the promise settles it
    commits the view unless [cancel] is set, then arms [setTimeout(loop,
    POLL_MS)] unless [cancel] is set.  The effect's cleanup sets [cancel];
    it clears no timer. *)

Definition POLL_MS : Z := 1200.

Record PollState := {
  cancel : bool;
  held : option GameView;
  in_flight : nat;
  timers : list Z;
  fetches : nat
}.

Inductive PollEvent :=
| Resolve (v : GameView)
| Reject
| TimerFires
| Cleanup.

(** Entering [loop]: [fetchState] is called, whatever [cancel] holds. *)
Definition loop_enter (s : PollState) : PollState :=
  {| cancel := cancel s; held := held s;
     in_flight := S (in_flight s); timers := timers s;
     fetches := S (fetches s) |}.

(** The rest of [loop] once the awaited promise has settled. *)
Definition loop_resume (s : PollState) (r : option GameView) : PollState :=
  let held' :=
    match r with
    | Some v => if negb (cancel s) then Some v else held s
    | None => held s
    end in
  {| cancel := cancel s; held := held';
     in_flight := pred (in_flight s);
     timers := if negb (cancel s) then timers s ++ [POLL_MS] else timers s;
     fetches := fetches s |}.

Definition poll_step (s : PollState) (e : PollEvent) : option PollState :=
  match e with
  | Resolve v =>
      if bool_decide (0 < in_flight s) then Some (loop_resume s (Some v))
      else None
  | Reject =>
      if bool_decide (0 < in_flight s) then Some (loop_resume s None)
      else None
  | TimerFires =>
      match timers s with
      | _ :: rest =>
          Some (loop_enter {| cancel := cancel s; held := held s;
                              in_flight := in_flight s; timers := rest;
                              fetches := fetches s |})
      | [] => None
      end
  | Cleanup =>
      Some {| cancel := true; held := held s; in_flight := in_flight s;
              timers := timers s; fetches := fetches s |}
  end.

Fixpoint poll_run (s : PollState) (es : list PollEvent) : option PollState :=
  match es with
  | [] => Some s
  | e :: es' =>
      match poll_step s e with
      | Some s' => poll_run s' es'
      | None => None
      end
  end.

(** The effect body: [let cancel = false; ...; loop();]. *)
Definition poll_start (view0 : option GameView) : PollState :=
  loop_enter {| cancel := false; held := view0; in_flight := 0;
                timers := []; fetches := 0 |}.

(** While the session lives, the loop is either awaiting its one fetch or
    waiting on its one timer, armed with [POLL_MS]; once cancelled, what is
    left can only drain. *)
Definition poll_inv (s : PollState) : Prop :=
  (in_flight s = 1 ∧ timers s = [])
  ∨ (in_flight s = 0 ∧ timers s = [POLL_MS])
  ∨ (cancel s = true ∧ in_flight s = 0 ∧ timers s = []).


(** The player whose claim is open to challenge: the blocker when a block is
    pending, otherwise the actor of the pending action. *)
Definition claimant (view : GameView) : option string :=
  match pending_block view with
  | Some pb => Some (blocker_id pb)
  | None => actor_id <$> pending_action view
  end.

(** ** 9. Sample tables

    A four-seat table: [p1] and [p3] on team A, [p2] and [p4] on team B. *)

Module Sample.

Definition player (id : string) (t : Team) (c : Z) (al : bool) (n : Z)
  : PublicPlayer :=
  {| player_id := id; name := id; team := t; coins := c; alive := al;
     num_cards := n; cards := None |}.

Definition table (l : list PublicPlayer) : gmap string PublicPlayer :=
  list_to_map ((fun p => (player_id p, p)) <$> l).

Definition four : list PublicPlayer :=
  [ player "p1" A 7 true 2; player "p2" B 2 true 2;
    player "p3" A 0 true 1; player "p4" B 0 false 0 ].

Definition snapshot (m : GameMode) (ph : GamePhase) (viewer : string)
    (cur : option string) (ps : list PublicPlayer)
    (pa : option PublicAction) (pb : option PublicBlock) : GameView :=
  {| game_id := "g"; mode := m; phase := ph; you := viewer;
     current_player := cur; turn_order := player_id <$> ps;
     players := table ps; winner_team := None; logs := [];
     pending_action := pa; pending_block := pb;
     exchange_pool_size := 0; exchange_cards := None;
     loss_choice_player_id := None; loss_choice_cards := None;
     deck_size := 7; revealed_cards := [] |}.

Definition act (actor a : string) (target : option string) : PublicAction :=
  {| actor_id := actor; action := a; target_id := target |}.

Definition blk (blocker bt : string) : PublicBlock :=
  {| blocker_id := blocker; block_type := bt |}.

(** A lobby that holds three players only. *)
Definition lobby_of_three : GameView :=
  snapshot normal_team lobby "p1" None (take 3 four) None None.

(** [p1] to act, normal and super mode. *)
Definition turn_of_p1 (m : GameMode) : GameView :=
  snapshot m action_selection "p1" (Some "p1") four None None.

(** Super mode, [p2] plays [a] on [p1]; seen by [viewer]. *)
Definition blocking (viewer a : string) : GameView :=
  snapshot super_team block_window viewer (Some "p2") four
    (Some (act "p2" a (Some "p1"))) None.


(** [p2] claims [a]; with [blocked], [p1] claims a block against it. *)
Definition challenging (viewer a : string) (blocked : bool) : GameView :=
  snapshot normal_team challenge_window viewer (Some "p2") four
    (Some (act "p2" a (Some "p1")))
    (if blocked then Some (blk "p1" "block_steal_captain") else None).




End Sample.

(** ** 10. Seat placement ([seatPositionClass]) *)

Definition seatPositionClass (index total : nat) : string :=
  if bool_decide (total = 4) then
    match index with
    | 0 => "bottom-4 left-1/2 -translate-x-1/2"
    | 1 => "top-1/2 left-4 -translate-y-1/2"
    | 2 => "top-4 left-1/2 -translate-x-1/2"
    | 3 => "top-1/2 right-4 -translate-y-1/2"
    | _ => EmptyString
    end
  else if bool_decide (total = 6) then
    match index with
    | 0 => "bottom-4 left-1/2 -translate-x-1/2"
    | 1 => "bottom-10 left-10"
    | 2 => "top-10 left-10"
    | 3 => "top-4 left-1/2 -translate-x-1/2"
    | 4 => "top-10 right-10"
    | 5 => "bottom-10 right-10"
    | _ => EmptyString
    end
  else "bottom-4 left-1/2 -translate-x-1/2".

(** The class of every rendered seat: [seats.map((p, idx) => ...)] with
    [total = seats.length]. *)
Definition seatClasses (view : GameView) (you_ : PublicPlayer) : list string :=
  imap (fun idx _ => seatPositionClass idx (length (seats view you_)))
    (seats view you_).

(** ** 11. The exchange and loss panels ([SwapChoicePanel],
       [LossChoicePanel])

    Both keep their own [useState]; a render is a function of the props and
    of that state, a click a step on it. *)

Inductive ChoiceCommand :=
| sendFinishExchange (keep : list nat)
| sendChooseLoss (cardIndex : nat).

Record CardButton := {
  card_role : string;
  card_index : nat;
  card_selected : bool
}.

(** [toggleIndex], as the updater passed to [setSelected]. *)
Definition toggleIndex (mustKeep : Z) (prev : list nat) (idx : nat)
  : list nat :=
  if bool_decide (idx ∈ prev) then filter (fun x => x ≠ idx) prev
  else if (mustKeep <=? Z.of_nat (length prev))%Z then prev
  else prev ++ [idx].

Inductive SwapElement :=
| SwapWait (chooserName : string)
| SwapChoose (mustKeep : Z) (cardButtons : list CardButton)
    (selectedCount : nat) (confirmDisabled : bool).

Definition swapCards (view : GameView) : list string :=
  default [] (exchange_cards view).

Definition renderSwapChoice (view : GameView) (you_ : PublicPlayer)
    (selected : list nat) : SwapElement :=
  let isYouChoosing := seq_opt (current_player view) (player_id you_) in
  let mustKeep := num_cards you_ in
  if negb isYouChoosing then
    SwapWait
      (default "Someone"
         (name <$> (players view
                    !! default EmptyString (current_player view))))
  else
    SwapChoose mustKeep
      (imap (fun idx role =>
               {| card_role := role; card_index := idx;
                  card_selected := bool_decide (idx ∈ selected) |})
         (swapCards view))
      (length selected)
      (negb (bool_decide (Z.of_nat (length selected) = mustKeep))).

Inductive ChoiceEvent :=
| ClickCard (idx : nat)
| ClickConfirm.

(** A click reaches its handler only on a button that is rendered, and on
    the confirm button only while it is not disabled. *)
Definition swap_step (view : GameView) (you_ : PublicPlayer)
    (selected : list nat) (e : ChoiceEvent)
  : list ChoiceCommand * list nat :=
  match renderSwapChoice view you_ selected with
  | SwapWait _ => ([], selected)
  | SwapChoose mustKeep cardButtons _ confirmDisabled =>
      match e with
      | ClickCard idx =>
          if bool_decide (idx < length cardButtons)
          then ([], toggleIndex mustKeep selected idx)
          else ([], selected)
      | ClickConfirm =>
          if confirmDisabled then ([], selected)
          else ([sendFinishExchange selected], selected)
      end
  end.

(** The panel over time.  [selected] is the [useState] of the panel: empty at
    mount, and kept for as long as the panel stays mounted, that is through
    every later render of [GameLayout] that shows the panel again, with
    whatever snapshot and viewer record that render passes down.  (The panel
    is unmounted, and its state lost, when [ActionPanel] returns another
    element, as it does in every other phase.) *)
Inductive PanelEvent :=
| Click (e : ChoiceEvent)
| Rerender (view : GameView) (you_ : PublicPlayer).

Record SwapPanel := {
  sw_view : GameView;
  sw_you : PublicPlayer;
  sw_selected : list nat
}.

Definition swap_mount (view : GameView) (you_ : PublicPlayer) : SwapPanel :=
  {| sw_view := view; sw_you := you_; sw_selected := [] |}.

Definition swap_event (s : SwapPanel) (e : PanelEvent)
  : list ChoiceCommand * SwapPanel :=
  match e with
  | Click c =>
      let '(cmds, selected) :=
        swap_step (sw_view s) (sw_you s) (sw_selected s) c in
      (cmds, {| sw_view := sw_view s; sw_you := sw_you s;
                sw_selected := selected |})
  | Rerender view you_ =>
      ([], {| sw_view := view; sw_you := you_;
              sw_selected := sw_selected s |})
  end.

Fixpoint swap_run (s : SwapPanel) (es : list PanelEvent)
  : list ChoiceCommand * SwapPanel :=
  match es with
  | [] => ([], s)
  | e :: es' =>
      let '(cmds, s') := swap_event s e in
      let '(cmds', final) := swap_run s' es' in
      (cmds ++ cmds', final)
  end.

(** A run during which the props never change. *)
Definition clicksOnly (es : list PanelEvent) : Prop :=
  ∀ e, e ∈ es → ∃ c, e = Click c.

Inductive LossElement :=
| LossWait (loserName : string)
| LossChoose (cardButtons : list CardButton) (confirmDisabled : bool).

(** [(view.loss_choice_cards ?? you.cards) ?? []] *)
Definition lossCards (view : GameView) (you_ : PublicPlayer) : list string :=
  match loss_choice_cards view with
  | Some cs => cs
  | None => default [] (cards you_)
  end.

Definition renderLossChoice (view : GameView) (you_ : PublicPlayer)
    (selected : option nat) : option LossElement :=
  let lossPlayerId := loss_choice_player_id view in
  let lossPlayer :=
    if truthy lossPlayerId
    then players view !! default EmptyString lossPlayerId
    else None in
  let isYouChoosing := seq_opt lossPlayerId (player_id you_) in
  match lossPlayer with
  | None => None
  | Some loser =>
      if negb isYouChoosing then Some (LossWait (name loser))
      else
        Some (LossChoose
                (imap (fun idx role =>
                         {| card_role := role; card_index := idx;
                            card_selected :=
                              bool_decide (selected = Some idx) |})
                   (lossCards view you_))
                (bool_decide (selected = None)))
  end.

Definition loss_step (view : GameView) (you_ : PublicPlayer)
    (selected : option nat) (e : ChoiceEvent)
  : list ChoiceCommand * option nat :=
  match renderLossChoice view you_ selected with
  | Some (LossChoose cardButtons confirmDisabled) =>
      match e with
      | ClickCard idx =>
          if bool_decide (idx < length cardButtons)
          then ([], Some idx) else ([], selected)
      | ClickConfirm =>
          match selected with
          | Some idx =>
              if confirmDisabled then ([], selected)
              else ([sendChooseLoss idx], selected)
          | None => ([], selected)
          end
      end
  | _ => ([], selected)
  end.

(** [LossChoicePanel] over time, as [SwapPanel] above: [selected] starts as
    [null] and outlives a change of the props.  The panel calls [useState]
    after its early return of line 1236: a render for which the loss player
    is not found returns [null] without running the hook and leaves no state
    behind, so that the next render that runs it starts from [null] again. *)
Record LossPanel := {
  lo_view : GameView;
  lo_you : PublicPlayer;
  lo_selected : option nat
}.

Definition loss_mount (view : GameView) (you_ : PublicPlayer) : LossPanel :=
  {| lo_view := view; lo_you := you_; lo_selected := None |}.

(** [lossPlayer] is truthy: the render goes on to [useState]. *)
Definition lossPlayerFound (view : GameView) : bool :=
  truthy (loss_choice_player_id view)
  && bool_decide
       (is_Some (players view
                 !! default EmptyString (loss_choice_player_id view))).

Definition loss_event (s : LossPanel) (e : PanelEvent)
  : list ChoiceCommand * LossPanel :=
  match e with
  | Click c =>
      let '(cmds, selected) :=
        loss_step (lo_view s) (lo_you s) (lo_selected s) c in
      (cmds, {| lo_view := lo_view s; lo_you := lo_you s;
                lo_selected := selected |})
  | Rerender view you_ =>
      ([], {| lo_view := view; lo_you := you_;
              lo_selected :=
                if lossPlayerFound (lo_view s) && lossPlayerFound view
                then lo_selected s else None |})
  end.

Fixpoint loss_run (s : LossPanel) (es : list PanelEvent)
  : list ChoiceCommand * LossPanel :=
  match es with
  | [] => ([], s)
  | e :: es' =>
      let '(cmds, s') := loss_event s e in
      let '(cmds', final) := loss_run s' es' in
      (cmds ++ cmds', final)
  end.

(** What every selection of the exchange panel satisfies. *)
Definition selection_ok (view : GameView) (you_ : PublicPlayer)
    (selected : list nat) : Prop :=
  NoDup selected
  ∧ (Z.of_nat (length selected) ≤ Z.max 0 (num_cards you_))%Z
  ∧ ∀ i, i ∈ selected → i < length (swapCards view).

(** ** 12. The server interface ([src/api.ts]) *)

(** A thrown value: an [Error] object with its [name] and [message]. *)
Record JsError := {
  e_name : string;
  e_message : string
}.

(** [new Error(msg)] *)
Definition Error (msg : string) : JsError :=
  {| e_name := "Error"; e_message := msg |}.

(** [String(e)], that is [Error.prototype.toString]. *)
Definition errorToString (e : JsError) : string :=
  if bool_decide (e_name e = EmptyString) then e_message e
  else if bool_decide (e_message e = EmptyString) then e_name e
  else e_name e +:+ ": " +:+ e_message e.

(** [a || b] on strings. *)
Definition or_string (a b : string) : string :=
  if bool_decide (a = EmptyString) then b else a.

Inductive Outcome (X : Type) :=
| Fulfilled (x : X)
| Rejected (e : JsError).
Arguments Fulfilled {X} x.
Arguments Rejected {X} e.

(** What [fetch] hands back: the response with its [ok] flag, its
    [statusText], and the outcomes of [res.text()] and [res.json()]. *)
Record Response (X : Type) := {
  ok : bool;
  text : Outcome string;
  statusText : string;
  json : Outcome X
}.
Arguments ok {X} _.
Arguments text {X} _.
Arguments statusText {X} _.
Arguments json {X} _.

Inductive Fetched (X : Type) :=
| NetworkFailure (e : JsError)
| Responded (res : Response X).
Arguments NetworkFailure {X} e.
Arguments Responded {X} res.

Definition postJSON {X : Type} (f : Fetched X) : Outcome X :=
  match f with
  | NetworkFailure e => Rejected e
  | Responded res =>
      if negb (ok res) then
        match text res with
        | Fulfilled body => Rejected (Error (or_string body (statusText res)))
        | Rejected e => Rejected e
        end
      else json res
  end.

(** [s.replace(/\/+$/, "")]: the match starts at the first position from
    which only slashes follow. *)
Fixpoint all_slashes (s : string) : bool :=
  match s with
  | EmptyString => true
  | String c s' => bool_decide (String c EmptyString = "/") && all_slashes s'
  end.

Fixpoint stripTrailingSlashes (s : string) : string :=
  match s with
  | EmptyString => EmptyString
  | String c s' =>
      if all_slashes s then EmptyString
      else String c (stripTrailingSlashes s')
  end.

(** [import.meta.env.VITE_API_BASE_URL || "http://localhost:8000"] *)
Definition RAW_BASE (env : option string) : string :=
  or_string (default EmptyString env) "http://localhost:8000".

Definition API_BASE (env : option string) : string :=
  stripTrailingSlashes (RAW_BASE env) +:+ "/api".

Inductive LobbyMode := normal | super.

(** The requests of [api.ts], each with the fields of its JSON body. *)
Inductive ApiCall :=
| createGame (m : LobbyMode) (nm : string) (t : Team)
| joinGame (gid nm : string) (t : Team)
| startGame (token : string)
| fetchState (token : string)
| apiAction (token a : string) (target : option string)
| apiBlock (token bt : string)
| apiChallenge (token : string)
| apiNoChallenge (token : string)
| apiNoBlock (token : string)
| apiFinishExchange (token : string) (keep : list nat)
| apiChooseLoss (token : string) (cardIndex : nat).

Definition apiPath (c : ApiCall) : string :=
  match c with
  | createGame _ _ _ => "/create_game"
  | joinGame _ _ _ => "/join_game"
  | startGame _ => "/start_game"
  | fetchState _ => "/state"
  | apiAction _ _ _ => "/action"
  | apiBlock _ _ => "/block"
  | apiChallenge _ => "/challenge"
  | apiNoChallenge _ => "/no_challenge"
  | apiNoBlock _ => "/no_block"
  | apiFinishExchange _ _ => "/finish_exchange"
  | apiChooseLoss _ _ => "/choose_loss"
  end.

Definition apiUrl (env : option string) (c : ApiCall) : string :=
  API_BASE env +:+ apiPath c.

(** ** 13. [App]: state and handlers

    A handler runs to its [await], resumes with the outcome of the request
    and writes the state; the outcomes are arguments here.  The handler's
    result is the list of requests it has sent and the state after its
    writes. *)

Record AppState := {
  playerToken : option string;
  gameId : option string;
  app_view : option GameView;
  form_name : string;
  form_team : Team;
  form_mode : LobbyMode;
  joinGameId : string;
  error : option string
}.

Definition setError (e : option string) (s : AppState) : AppState :=
  {| playerToken := playerToken s; gameId := gameId s;
     app_view := app_view s; form_name := form_name s;
     form_team := form_team s; form_mode := form_mode s;
     joinGameId := joinGameId s; error := e |}.

Definition setView (v : GameView) (s : AppState) : AppState :=
  {| playerToken := playerToken s; gameId := gameId s;
     app_view := Some v; form_name := form_name s;
     form_team := form_team s; form_mode := form_mode s;
     joinGameId := joinGameId s; error := error s |}.

Definition setSession (gid token : string) (s : AppState) : AppState :=
  {| playerToken := Some token; gameId := Some gid;
     app_view := app_view s; form_name := form_name s;
     form_team := form_team s; form_mode := form_mode s;
     joinGameId := joinGameId s; error := error s |}.

(** [catch (e) { setError(e.message || String(e)) }] *)
Definition errorBanner (e : JsError) : string :=
  or_string (e_message e) (errorToString e).


Definition handleJoinGame (s : AppState)
    (joined : Outcome string) (fetched : Outcome GameView)
  : list ApiCall * AppState :=
  if bool_decide (joinGameId s = EmptyString) then ([], s)
  else
    let s0 := setError None s in
    let call :=
      joinGame (joinGameId s) (or_string (form_name s) "Player")
        (form_team s) in
    match joined with
    | Rejected e => ([call], setError (Some (errorBanner e)) s0)
    | Fulfilled player_token =>
        let s1 := setSession (joinGameId s) player_token s0 in
        match fetched with
        | Fulfilled v => ([call; fetchState player_token], setView v s1)
        | Rejected e =>
            ([call; fetchState player_token],
             setError (Some (errorBanner e)) s1)
        end
    end.

(** [handleStartGame] does not call [setError(null)]. *)
Definition handleStartGame (s : AppState)
    (started : Outcome bool) (fetched : Outcome GameView)
  : list ApiCall * AppState :=
  match playerToken s with
  | Some token =>
      if negb (truthy (playerToken s)) then ([], s)
      else
        match started with
        | Rejected e => ([startGame token], setError (Some (errorBanner e)) s)
        | Fulfilled _ =>
            match fetched with
            | Fulfilled v => ([startGame token; fetchState token], setView v s)
            | Rejected e =>
                ([startGame token; fetchState token],
                 setError (Some (errorBanner e)) s)
            end
        end
  | None => ([], s)
  end.

(** The seven command handlers share one body and differ in the request. *)
Definition commandHandler (request : string → ApiCall) (s : AppState)
    (answer : Outcome GameView) : list ApiCall * AppState :=
  match playerToken s with
  | Some token =>
      if negb (truthy (playerToken s)) then ([], s)
      else
        let s0 := setError None s in
        match answer with
        | Fulfilled v => ([request token], setView v s0)
        | Rejected e => ([request token], setError (Some (errorBanner e)) s0)
        end
  | None => ([], s)
  end.

Definition handleAction (a : string) (target_id_ : option string) :=
  commandHandler (fun token => apiAction token a target_id_).
Definition handleBlock (bt : string) :=
  commandHandler (fun token => apiBlock token bt).
Definition handleChallenge := commandHandler apiChallenge.
Definition handleNoChallenge := commandHandler apiNoChallenge.
Definition handleNoBlock := commandHandler apiNoBlock.
Definition handleFinishExchange (keepIndices : list nat) :=
  commandHandler (fun token => apiFinishExchange token keepIndices).
Definition handleChooseLoss (cardIndex : nat) :=
  commandHandler (fun token => apiChooseLoss token cardIndex).

(** What [App] renders: the create-or-join form until there is a token and a
    view, then [GameLayout]; the error banner sits above either. *)
Inductive Page :=
| CreateOrJoin (banner : option string)
| Table (banner : option string) (view : GameView).

(** [{error && <div>...</div>}] *)
Definition shownBanner (s : AppState) : option string :=
  if truthy (error s) then error s else None.

Definition App (s : AppState) : Page :=
  match app_view s with
  | Some view =>
      if negb (truthy (playerToken s)) then CreateOrJoin (shownBanner s)
      else Table (shownBanner s) view
  | None => CreateOrJoin (shownBanner s)
  end.


(** ** 14. [Landing]

    [String.prototype.trim] is taken as given. *)

Section LandingForm.

Variable trim : string → string.

Record LandingState := {
  landing_name : string;
  landing_team : Team;
  landing_mode : LobbyMode;
  landing_joinGameId : string
}.

Definition createDisabled (loading : bool) (st : LandingState) : bool :=
  loading || bool_decide (trim (landing_name st) = EmptyString).

Definition joinDisabled (loading : bool) (st : LandingState) : bool :=
  loading || bool_decide (trim (landing_name st) = EmptyString)
  || bool_decide (trim (landing_joinGameId st) = EmptyString).

(** The arguments handed to [onCreate] and [onJoin] by a click. *)
Definition clickCreate (loading : bool) (st : LandingState)
  : option (LobbyMode * string * Team) :=
  if createDisabled loading st then None
  else Some (landing_mode st, trim (landing_name st), landing_team st).

Definition clickJoin (loading : bool) (st : LandingState)
  : option (string * string * Team) :=
  if joinDisabled loading st then None
  else Some (trim (landing_joinGameId st), trim (landing_name st),
             landing_team st).

End LandingForm.

(** ** 15. More sample snapshots *)

Module Fixture.

(** [p1] to act, seen by [p3]. *)
Definition waiting_for_p1 : GameView :=
  Sample.snapshot normal_team action_selection "p3" (Some "p1") Sample.four
    None None.

(** [p1] chooses two of three offered cards. *)
Definition exchange_of_p1 : GameView :=
  {| game_id := "g"; mode := normal_team; phase := swap_choice; you := "p1";
     current_player := Some "p1";
     turn_order := player_id <$> Sample.four;
     players := Sample.table Sample.four; winner_team := None; logs := [];
     pending_action := None; pending_block := None;
     exchange_pool_size := 3;
     exchange_cards := Some ["Duke"; "Captain"; "Contessa"];
     loss_choice_player_id := None; loss_choice_cards := None;
     deck_size := 7; revealed_cards := [] |}.

(** [p1] has to give up one of two cards. *)
Definition loss_of_p1 : GameView :=
  {| game_id := "g"; mode := normal_team; phase := loss_choice; you := "p1";
     current_player := Some "p2";
     turn_order := player_id <$> Sample.four;
     players := Sample.table Sample.four; winner_team := None; logs := [];
     pending_action := None; pending_block := None;
     exchange_pool_size := 0; exchange_cards := None;
     loss_choice_player_id := Some "p1";
     loss_choice_cards := Some ["Duke"; "Captain"];
     deck_size := 7; revealed_cards := [] |}.

Definition at_table (banner : option string) : AppState :=
  {| playerToken := Some "tok"; gameId := Some "g";
     app_view := Some (Sample.turn_of_p1 normal_team);
     form_name := EmptyString; form_team := A; form_mode := normal;
     joinGameId := EmptyString; error := banner |}.


Definition rejection (body status : string) : Fetched GameView :=
  Responded {| ok := false; text := Fulfilled body; statusText := status;
               json := Rejected (Error "unused") |}.

End Fixture.

(** ** 16. Reading a poll trace *)

(** The view of the last [Resolve] of a trace, or [init] when it has none. *)
Fixpoint last_resolved (init : option GameView) (es : list PollEvent)
  : option GameView :=
  match es with
  | [] => init
  | Resolve v :: es' => last_resolved (Some v) es'
  | _ :: es' => last_resolved init es'
  end.

(** The part of a trace before its first [Cleanup]. *)
Fixpoint before_cleanup (es : list PollEvent) : list PollEvent :=
  match es with
  | [] => []
  | Cleanup :: _ => []
  | e :: es' => e :: before_cleanup es'
  end.

(** The events of a trace other than [Cleanup]. *)
Fixpoint loop_events (es : list PollEvent) : nat :=
  match es with
  | [] => 0
  | Cleanup :: es' => loop_events es'
  | _ :: es' => S (loop_events es')
  end.

(** ** 17. Ids that are not found

    [view.players[id]] reads a property of a plain object.  For an [id] that
    is no key of [players] the read still finds the members that every
    object inherits from [Object.prototype], and gives [undefined] only for
    the other ids.  The lookups of this development are [players view !! id]:
    that is what the code reads for every key of [players] and for every id
    that names no inherited member.  What is stated about an id that is not
    found is stated for [missing]. *)

Definition inheritedMembers : list string :=
  ["constructor"; "__defineGetter__"; "__defineSetter__"; "hasOwnProperty";
   "__lookupGetter__"; "__lookupSetter__"; "isPrototypeOf";
   "propertyIsEnumerable"; "toString"; "valueOf"; "__proto__";
   "toLocaleString"].

(** [view.players[id] === undefined] *)
Definition missing (view : GameView) (id : string) : Prop :=
  players view !! id = None ∧ id ∉ inheritedMembers.

(** [id && view.players[id]] is falsy: [id] is [null], empty or not found. *)
Definition missingTarget (view : GameView) (id : option string) : Prop :=
  match id with
  | Some t => t = EmptyString ∨ missing view t
  | None => True
  end.

(** ** 18. Snapshots of a table that changes *)

Module Later.

(** The table of [Sample.turn_of_p1] once [p2] is gone from [players]. *)
Definition p2_gone : GameView :=
  Sample.snapshot normal_team action_selection "p1" (Some "p1")
    [ Sample.player "p1" A 7 true 2; Sample.player "p3" A 0 true 1;
      Sample.player "p4" B 0 false 0 ] None None.

(** A spectator: the viewer id is neither in [players] nor in
    [turn_order]. *)
Definition spectator : GameView :=
  Sample.snapshot normal_team action_selection "watcher" (Some "p1")
    Sample.four None None.

(** A viewer that [players] holds and [turn_order] does not seat. *)
Definition unseated : GameView :=
  {| game_id := "g"; mode := normal_team; phase := action_selection;
     you := "p1"; current_player := Some "p2";
     turn_order := ["p2"; "p3"; "p4"];
     players := Sample.table Sample.four; winner_team := None; logs := [];
     pending_action := None; pending_block := None;
     exchange_pool_size := 0; exchange_cards := None;
     loss_choice_player_id := None; loss_choice_cards := None;
     deck_size := 7; revealed_cards := [] |}.



(** [Fixture.exchange_of_p1] with two cards offered instead of three. *)
Definition exchange_of_two : GameView :=
  {| game_id := "g"; mode := normal_team; phase := swap_choice; you := "p1";
     current_player := Some "p1";
     turn_order := player_id <$> Sample.four;
     players := Sample.table Sample.four; winner_team := None; logs := [];
     pending_action := None; pending_block := None;
     exchange_pool_size := 2;
     exchange_cards := Some ["Duke"; "Captain"];
     loss_choice_player_id := None; loss_choice_cards := None;
     deck_size := 7; revealed_cards := [] |}.

(** [Fixture.loss_of_p1] once [p1] is down to one card. *)
Definition loss_of_last_card : GameView :=
  {| game_id := "g"; mode := normal_team; phase := loss_choice; you := "p1";
     current_player := Some "p2";
     turn_order := player_id <$> Sample.four;
     players := Sample.table Sample.four; winner_team := None; logs := [];
     pending_action := None; pending_block := None;
     exchange_pool_size := 0; exchange_cards := None;
     loss_choice_player_id := Some "p1";
     loss_choice_cards := Some ["Captain"];
     deck_size := 7; revealed_cards := [] |}.

End Later.

(** * Properties *)

(** ** Seat rotation *)

Section SeatRotation.

Lemma indexOf_from_absent (l : list string) (x : string) (i : Z) :
  x ∉ l → indexOf_from l x i = (-1)%Z.
Proof.
  revert i. induction l as [|y l IH]; intros i Hx; simpl; [done|].
  apply not_elem_of_cons in Hx as [Hne Hx].
  rewrite bool_decide_eq_false_2 by congruence. by apply IH.
Qed.

Lemma indexOf_from_first (l : list string) (x : string) (i : Z) (k : nat) :
  l !! k = Some x →
  (∀ j, j < k → l !! j ≠ Some x) →
  indexOf_from l x i = (i + Z.of_nat k)%Z.
Proof.
  revert i k. induction l as [|y l IH]; intros i k Hk Hmin; [done|].
  destruct k as [|k]; simpl in *.
  - injection Hk as ->. rewrite bool_decide_eq_true_2 by done. lia.
  - rewrite bool_decide_eq_false_2.
    + rewrite (IH (i + 1)%Z k Hk); [lia|].
      intros j Hj. apply (Hmin (S j)). lia.
    + intros ->. by apply (Hmin 0); [lia|].
Qed.

Lemma slice_from_drop {X} (l : list X) (k : nat) :
  k ≤ length l → slice_from l (Z.of_nat k) = drop k l.
Proof.
  intros Hk. unfold slice_from, slice, clamp_index.
  destruct (Z.ltb_spec (Z.of_nat k) 0); [lia|].
  destruct (Z.ltb_spec (Z.of_nat (length l)) 0); [lia|].
  rewrite Z.min_l, Z.min_l, Nat2Z.id by lia.
  apply take_ge. rewrite length_drop. lia.
Qed.

Lemma slice_zero_take {X} (l : list X) (k : nat) :
  k ≤ length l → slice l 0 (Z.of_nat k) = take k l.
Proof.
  intros Hk. unfold slice, clamp_index.
  destruct (Z.ltb_spec (Z.of_nat k) 0); [lia|].
  change (0 <? 0)%Z with false. cbv beta iota.
  rewrite Z.min_l, Z.min_l by lia.
  change (Z.to_nat 0) with 0. rewrite drop_0.
  by rewrite Z.sub_0_r, Nat2Z.id.
Qed.

Lemma rotatedIds_found (l : list string) (you_ : PublicPlayer) (i : nat) :
  l !! i = Some (player_id you_) →
  (∀ j, j < i → l !! j ≠ Some (player_id you_)) →
  rotatedIds l you_ = drop i l ++ take i l.
Proof.
  intros Hi Hmin. unfold rotatedIds, indexOf.
  rewrite (indexOf_from_first l _ 0 i Hi Hmin), Z.add_0_l.
  apply lookup_lt_Some in Hi.
  destruct (Z.eqb_spec (Z.of_nat i) (-1)); [lia|].
  rewrite slice_from_drop, slice_zero_take by lia. done.
Qed.

Lemma rotate_lookup {X} (l : list X) (i k : nat) :
  i < length l → k < length l →
  (drop i l ++ take i l) !! k = l !! ((i + k) mod length l).
Proof.
  intros Hi Hk. destruct (decide (k < length l - i)) as [Hlt|Hge].
  - rewrite lookup_app_l by (rewrite length_drop; lia).
    rewrite lookup_drop. by rewrite Nat.mod_small by lia.
  - rewrite lookup_app_r by (rewrite length_drop; lia).
    rewrite length_drop, lookup_take_lt by lia.
    f_equal.
    replace (i + k) with ((k - (length l - i)) + 1 * length l) by lia.
    rewrite Nat.Div0.mod_add. rewrite Nat.mod_small; lia.
Qed.

End SeatRotation.

(** X30. Seat rotation, for a viewer record that is at hand: when the first
    position of its id in [turn_order] is [i], the rotated order is
    [turn_order] rotated left by [i]: it starts with the viewer, keeps the
    length, and its [k]-th seat is the canonical seat [(i + k) mod N].  When
    the id does not occur in [turn_order] the canonical order is returned
    as it is. *)
Theorem seat_rotation (orderedIds : list string) (you_ : PublicPlayer) :
  (∀ i : nat,
     orderedIds !! i = Some (player_id you_) →
     (∀ j, j < i → orderedIds !! j ≠ Some (player_id you_)) →
     rotatedIds orderedIds you_ = drop i orderedIds ++ take i orderedIds
     ∧ head (rotatedIds orderedIds you_) = Some (player_id you_)
     ∧ length (rotatedIds orderedIds you_) = length orderedIds
     ∧ ∀ k : nat, k < length orderedIds →
         rotatedIds orderedIds you_ !! k
         = orderedIds !! ((i + k) mod length orderedIds))
  ∧ (player_id you_ ∉ orderedIds → rotatedIds orderedIds you_ = orderedIds).
Proof.
  split.
  - intros i Hi Hmin.
    pose proof (lookup_lt_Some _ _ _ Hi) as Hlen.
    rewrite (rotatedIds_found _ _ i Hi Hmin).
    split; [done|]. split; [|split].
    + rewrite head_lookup, (rotate_lookup orderedIds i 0) by lia.
      by rewrite Nat.add_0_r, Nat.mod_small.
    + rewrite length_app, length_drop, length_take. lia.
    + intros k Hk. by apply rotate_lookup.
  - intros Hx. unfold rotatedIds, indexOf.
    by rewrite indexOf_from_absent.
Qed.

Lemma seat_rotation_witness :
  rotatedIds ["p1"; "p2"; "p3"; "p4"] (Sample.player "p3" A 0 true 1)
  = ["p3"; "p4"; "p1"; "p2"]
  ∧ rotatedIds ["p1"; "p2"; "p3"; "p4"] (Sample.player "zz" A 0 true 1)
    = ["p1"; "p2"; "p3"; "p4"].
Proof.
  split.
  - destruct (seat_rotation ["p1"; "p2"; "p3"; "p4"]
                (Sample.player "p3" A 0 true 1)) as [Hfound _].
    destruct (Hfound 2) as [Hrot _].
    + reflexivity.
    + intros [|[|j]] Hj; simpl; [discriminate | discriminate | lia].
    + exact Hrot.
  - destruct (seat_rotation ["p1"; "p2"; "p3"; "p4"]
                (Sample.player "zz" A 0 true 1)) as [_ Habsent].
    apply Habsent. simpl.
    rewrite !elem_of_cons, elem_of_nil.
    intros [H|[H|[H|[H|[]]]]]; discriminate H.
Defined.

(** C8. A spectator: a viewer id that occurs neither in [turn_order] nor in
    [players].  The rotation takes the id it looks for from the viewer's
    record ([you.player_id], line 57); for the spectator that record is
    [undefined] and the render raises before the test [youIndex === -1] is
    reached, whatever is selected.  A viewer that [players] holds and
    [turn_order] does not seat gets the canonical order, as that test
    intends. *)
Theorem spectator_rotation_raises :
  (you Later.spectator ∉ turn_order Later.spectator)
  ∧ missing Later.spectator (you Later.spectator)
  ∧ (∀ sel, GameLayout Later.spectator sel = TypeError)
  ∧ (you Later.unseated ∉ turn_order Later.unseated)
  ∧ ∃ page, GameLayout Later.unseated None = Ok page
            ∧ player_id <$> l_seats page = turn_order Later.unseated.
Proof.
  split; [apply (bool_decide_unpack _); by vm_compute|].
  split; [split; [by vm_compute | apply (bool_decide_unpack _); by vm_compute]|].
  split; [intros sel; by vm_compute|].
  split; [apply (bool_decide_unpack _); by vm_compute|].
  eexists. split; by vm_compute.
Qed.

(** ** Lobby *)

(** C3, as the code has it. In the lobby phase the panel shows the number of
    players and one "Start game" button that carries no [disabled]
    attribute: the control is enabled for every player count. *)
Theorem lobby_start_always_enabled (view : GameView) (you_ : PublicPlayer)
    (ca : bool) (sel : option string) (thc : bool) :
  phase view = lobby →
  ActionPanel view you_ ca sel thc
  = Ok (Some (LobbyPanel (size (players view))
                [Build_Button onStartGame false]))
  ∧ ∀ panel, ActionPanel view you_ ca sel thc = Ok panel →
             enabled onStartGame panel = true.
Proof.
  intros Hph. unfold ActionPanel. rewrite Hph. split; [done|].
  intros panel [= <-]. done.
Qed.

Lemma lobby_start_always_enabled_witness :
  ActionPanel Sample.lobby_of_three (Sample.player "p1" A 7 true 2)
    false None false
  = Ok (Some (LobbyPanel 3 [Build_Button onStartGame false])).
Proof.
  exact (proj1 (lobby_start_always_enabled Sample.lobby_of_three
                  (Sample.player "p1" A 7 true 2) false None false eq_refl)).
Defined.

(** C3 as stated fails: with three players in the lobby the "Start game"
    button is enabled although the count is neither 4 nor 6. *)
Lemma lobby_start_counterexample :
  ∃ page,
    GameLayout Sample.lobby_of_three None = Ok page
    ∧ size (players Sample.lobby_of_three) = 3
    ∧ ¬ (enabled onStartGame (l_panel page) = true
         ↔ size (players Sample.lobby_of_three) = 4
           ∨ size (players Sample.lobby_of_three) = 6).
Proof.
  eexists. split; [vm_compute; reflexivity|].
  split; [by vm_compute|].
  intros [H _]. specialize (H eq_refl). vm_compute in H.
  destruct H as [H|H]; discriminate H.
Qed.

(** ** Block window *)

Section BlockWindow.

Context (view : GameView) (you_ : PublicPlayer) (act : PublicAction).
Hypothesis Hact : pending_action view = Some act.

Lemma ActionPanel_block_window (ca : bool) (sel : option string) (thc : bool) :
  phase view = block_window →
  ActionPanel view you_ ca sel thc = Ok (blockPanel view you_).
Proof using Type. intros Hph. unfold ActionPanel. by rewrite Hph. Qed.

Lemma isSameTeam_Some : isSameTeam view act you_ = true →
  is_Some (players view !! actor_id act).
Proof using Type.
  unfold isSameTeam. destruct (players view !! actor_id act); [eauto|done].
Qed.

(** The three outcomes of the block window, in source order. *)
Lemma blockPanel_shape :
  (isSameTeam view act you_ = true
   ∧ ∃ t, blockPanel view you_ = Some (Notice t))
  ∨ (isSameTeam view act you_ = false
     ∧ isTargetedAction (action act) && negb (isTarget act you_) = true
     ∧ ∃ t, blockPanel view you_ = Some (Notice t))
  ∨ (isSameTeam view act you_ = false
     ∧ isTargetedAction (action act) && negb (isTarget act you_) = false
     ∧ ∃ t, blockPanel view you_
            = Some (Prompt t (blockButtons view act you_))).
Proof using Hact.
  unfold blockPanel. rewrite Hact.
  destruct (isSameTeam view act you_) eqn:Hs.
  - left. split; [done|].
    rewrite (bool_decide_eq_true_2 _ (isSameTeam_Some Hs)). simpl. eauto.
  - right. simpl.
    destruct (isTargetedAction (action act) && negb (isTarget act you_));
      [left|right]; eauto.
Qed.

Lemma elem_of_when (c : Control) (b : bool) (bs : list Button) :
  c ∈ onClick <$> when b bs ↔ b = true ∧ c ∈ onClick <$> bs.
Proof using Type.
  destruct b; simpl; [tauto|]. rewrite elem_of_nil. split; [tauto|].
  by intros [? _].
Qed.

Lemma blockButtons_controls (c : Control) :
  c ∈ onClick <$> blockButtons view act you_ ↔
    (canBlockForeignAid view act you_ = true
     ∧ c = onBlock "block_foreign_aid")
    ∨ (canBlockSteal act you_ = true
       ∧ (c = onBlock "block_steal_captain"
          ∨ c = onBlock "block_steal_ambassador"))
    ∨ (canBlockAssassinate act you_ = true ∧ c = onBlock "block_assassinate")
    ∨ (canBlockCoup view act you_ = true ∧ c = onBlock "block_coup")
    ∨ c = onNoBlock.
Proof using Type.
  unfold blockButtons.
  rewrite !fmap_app, !elem_of_app, !elem_of_when. simpl.
  rewrite !elem_of_cons, !elem_of_nil. tauto.
Qed.

Lemma offered_Notice (c : Control) (t : string) :
  offered c (Some (Notice t)) = false.
Proof using Type. done. Qed.

Lemma offered_Prompt (c : Control) (t : string) (bs : list Button) :
  offered c (Some (Prompt t bs)) = true ↔ c ∈ onClick <$> bs.
Proof using Type. unfold offered. simpl. apply bool_decide_eq_true. Qed.

Lemma canBlockCoup_true :
  canBlockCoup view act you_ = true ↔
    mode view = super_team ∧ action act = "coup"
    ∧ target_id act = Some (player_id you_) ∧ (2 ≤ num_cards you_)%Z.
Proof using Type.
  unfold canBlockCoup, isTarget, seq_opt.
  rewrite !andb_true_iff, !bool_decide_eq_true, Z.leb_le. tauto.
Qed.

Lemma block_coup_offered_iff :
  offered (onBlock "block_coup") (blockPanel view you_) = true ↔
    mode view = super_team ∧ action act = "coup"
    ∧ target_id act = Some (player_id you_) ∧ (2 ≤ num_cards you_)%Z
    ∧ isSameTeam view act you_ = false.
Proof using Hact.
  destruct blockPanel_shape
    as [(Hs & t & ->) | [(Hs & Ht & t & ->) | (Hs & Ht & t & ->)]].
  - rewrite offered_Notice. split; [done|]. intros (_ & _ & _ & _ & H).
    congruence.
  - rewrite offered_Notice. split; [done|].
    intros (_ & Ha & Htg & _ & _). exfalso.
    apply andb_true_iff in Ht as [_ Ht]. apply negb_true_iff in Ht.
    unfold isTarget, seq_opt in Ht.
    by rewrite bool_decide_eq_true_2 in Ht.
  - rewrite offered_Prompt, blockButtons_controls.
    split.
    + intros [[_ [=]] | [[_ [[=]|[=]]] | [[_ [=]] | [[H _] | [=]]]]].
      apply canBlockCoup_true in H. tauto.
    + intros (Hm & Ha & Htg & Hn & _). do 3 right. left. split; [|done].
      by apply canBlockCoup_true.
Qed.

End BlockWindow.

(** C2, as the code has it. In the block window the viewer is offered
    [block_coup] exactly when the game is in super mode, the pending action
    is [coup], the viewer is its target and holds at least two influence
    cards, and the actor is not on the viewer's team.  So a target holding
    exactly one card is never offered [block_coup], and against a pending
    [super_coup] nobody is. *)
Theorem block_coup_offer (view : GameView) (you_ : PublicPlayer)
    (act : PublicAction) (ca : bool) (sel : option string) (thc : bool) :
  phase view = block_window →
  pending_action view = Some act →
  ∃ panel,
    ActionPanel view you_ ca sel thc = Ok panel
    ∧ (offered (onBlock "block_coup") panel = true ↔
         mode view = super_team ∧ action act = "coup"
         ∧ target_id act = Some (player_id you_)
         ∧ (2 ≤ num_cards you_)%Z
         ∧ isSameTeam view act you_ = false)
    ∧ (num_cards you_ = 1%Z → offered (onBlock "block_coup") panel = false)
    ∧ (action act = "super_coup" →
       offered (onBlock "block_coup") panel = false).
Proof.
  intros Hph Hact. exists (blockPanel view you_).
  split; [by apply ActionPanel_block_window|].
  pose proof (block_coup_offered_iff view you_ act Hact) as Hiff.
  split; [done|].
  split; intros H; apply not_true_is_false; rewrite Hiff.
  - intros (_ & _ & _ & Hn & _). lia.
  - intros (_ & Ha & _). congruence.
Qed.

Lemma block_coup_offer_witness :
  ∃ panel,
    ActionPanel (Sample.blocking "p1" "coup") (Sample.player "p1" A 7 true 2)
      false None false = Ok panel
    ∧ offered (onBlock "block_coup") panel = true.
Proof.
  destruct (block_coup_offer (Sample.blocking "p1" "coup")
              (Sample.player "p1" A 7 true 2)
              (Sample.act "p2" "coup" (Some "p1")) false None false
              eq_refl eq_refl) as (panel & Hp & Hiff & _).
  exists panel. split; [exact Hp|]. apply Hiff.
  do 3 (split; [reflexivity|]). split; [simpl; lia|].
  vm_compute. reflexivity.
Defined.

(** C2 as stated fails: in a super-mode block window the target of a pending
    [super_coup] who holds two influence cards is not offered [block_coup]. *)
Lemma super_coup_block_counterexample :
  ∃ page,
    GameLayout (Sample.blocking "p1" "super_coup") None = Ok page
    ∧ mode (Sample.blocking "p1" "super_coup") = super_team
    ∧ phase (Sample.blocking "p1" "super_coup") = block_window
    ∧ pending_action (Sample.blocking "p1" "super_coup")
      = Some (Sample.act "p2" "super_coup" (Some (player_id (l_you page))))
    ∧ num_cards (l_you page) = 2%Z
    ∧ offered (onBlock "block_coup") (l_panel page) = false.
Proof. eexists. split; [vm_compute; reflexivity|]. by vm_compute. Qed.

(** The part of C6 that the code does: a viewer on the actor's team, the
    actor included, sees a notice and no control. *)
Lemma block_window_same_team_notice (view : GameView) (you_ : PublicPlayer)
    (act : PublicAction) :
  pending_action view = Some act →
  isSameTeam view act you_ = true →
  ∃ t, blockPanel view you_ = Some (Notice t).
Proof.
  intros Hact Hs.
  destruct (blockPanel_shape view you_ act Hact)
    as [(_ & H) | [(Hs' & _) | (Hs' & _)]]; [done|congruence..].
Qed.

(** ... and so does a viewer who is neither on the actor's team nor the
    target, for the five actions that [isTargetedAction] lists. *)
Lemma block_window_bystander_notice (view : GameView) (you_ : PublicPlayer)
    (act : PublicAction) :
  pending_action view = Some act →
  action act ∈ ["steal"; "super_steal"; "assassinate"; "super_assassinate";
                "coup"] →
  isSameTeam view act you_ = false →
  target_id act ≠ Some (player_id you_) →
  ∃ t, blockPanel view you_ = Some (Notice t).
Proof.
  intros Hact Ha Hs Ht.
  assert (isTargetedAction (action act) && negb (isTarget act you_) = true)
    as Hb.
  { unfold isTargetedAction, isTarget, seq_opt.
    by rewrite bool_decide_eq_true_2, bool_decide_eq_false_2. }
  destruct (blockPanel_shape view you_ act Hact)
    as [(_ & H) | [(_ & _ & H) | (_ & Hb' & _)]]; [done..|congruence].
Qed.

(** C6 at [super_coup]: the test [isTargetedAction] leaves [super_coup] out,
    so in a block window with a pending [super_coup] a viewer who is neither
    on the actor's team nor the target is shown the "Let it through" button
    instead of the notice. *)
Theorem super_coup_bystander_pass_control :
  ∃ page t,
    GameLayout (Sample.blocking "p3" "super_coup") None = Ok page
    ∧ pending_action (Sample.blocking "p3" "super_coup")
      = Some (Sample.act "p2" "super_coup" (Some "p1"))
    ∧ player_id (l_you page) = "p3"
    ∧ isSameTeam (Sample.blocking "p3" "super_coup")
        (Sample.act "p2" "super_coup" (Some "p1")) (l_you page) = false
    ∧ "super_coup" ∈ targetRequiredActions
    ∧ l_panel page = Some (Prompt t [Build_Button onNoBlock false])
    ∧ offered onNoBlock (l_panel page) = true.
Proof.
  do 2 eexists. split; [vm_compute; reflexivity|].
  repeat split; try (vm_compute; reflexivity).
  unfold targetRequiredActions. set_solver.
Qed.



(** ** Challenge window *)

Lemma offered_challengeResult (text : string) (b : bool) :
  offered onChallenge (challengeResult text b) = b
  ∧ offered onNoChallenge (challengeResult text b) = b.
Proof. by destruct b. Qed.

(** The challenge panel, once the claimant and (under a block) the actor
    resolve: its controls depend on the claimant alone. *)
Lemma challengePanel_claimant (view : GameView) (you_ : PublicPlayer)
    (c : string) (cp : PublicPlayer) :
  (∀ pb, pending_block view = Some pb →
         ∃ pa, pending_action view = Some pa
               ∧ is_Some (players view !! actor_id pa)) →
  claimant view = Some c →
  players view !! c = Some cp →
  ∃ text,
    challengePanel view you_
    = challengeResult text
        (negb (bool_decide (player_id cp = player_id you_))
         && negb (bool_decide (team cp = team you_))
         && alive you_).
Proof.
  intros Hinv Hc Hcp. unfold challengePanel, claimant in *.
  destruct (pending_block view) as [pb|].
  - destruct (Hinv pb eq_refl) as (pa & -> & actor & Hactor).
    injection Hc as <-. rewrite Hcp, Hactor.
    repeat case_bool_decide; simpl; eauto.
  - destruct (pending_action view) as [pa|]; [|done].
    injection Hc as <-. rewrite Hcp.
    repeat case_bool_decide; simpl; eauto.
Qed.

(** C7. In the challenge window the claim under challenge is the pending
    block when there is one and the pending action otherwise.  The claimant
    is never offered the challenge control, nor is a teammate of the
    claimant; every other living opponent of the claimant is offered both
    "Challenge" and "Pass". *)
Theorem challenge_window_eligibility (view : GameView) (you_ : PublicPlayer)
    (c : string) (cp : PublicPlayer)
    (ca : bool) (sel : option string) (thc : bool) :
  phase view = challenge_window →
  (∀ pb, pending_block view = Some pb →
         ∃ pa, pending_action view = Some pa
               ∧ is_Some (players view !! actor_id pa)) →
  claimant view = Some c →
  players view !! c = Some cp →
  player_id cp = c →
  ∃ panel,
    ActionPanel view you_ ca sel thc = Ok panel
    ∧ (offered onChallenge panel = true ↔
         c ≠ player_id you_ ∧ team cp ≠ team you_ ∧ alive you_ = true)
    ∧ offered onNoChallenge panel = offered onChallenge panel
    ∧ (∀ pb, pending_block view = Some pb → c = blocker_id pb)
    ∧ (pending_block view = None →
       ∀ pa, pending_action view = Some pa → c = actor_id pa).
Proof.
  intros Hph Hinv Hc Hcp Hid.
  exists (challengePanel view you_).
  split; [unfold ActionPanel; by rewrite Hph|].
  destruct (challengePanel_claimant view you_ c cp Hinv Hc Hcp) as [text ->].
  destruct (offered_challengeResult text
              (negb (bool_decide (player_id cp = player_id you_))
               && negb (bool_decide (team cp = team you_))
               && alive you_)) as [-> ->].
  split; [|split; [done|]].
  - rewrite !andb_true_iff, !negb_true_iff, !bool_decide_eq_false, Hid. tauto.
  - unfold claimant in Hc. split.
    + intros pb Hpb. rewrite Hpb in Hc. congruence.
    + intros Hnone pa Hpa. rewrite Hnone, Hpa in Hc. simpl in Hc. congruence.
Qed.

Lemma challenge_window_eligibility_witness :
  ∃ panel,
    ActionPanel (Sample.challenging "p2" "steal" true)
      (Sample.player "p2" B 2 true 2) false None false = Ok panel
    ∧ offered onChallenge panel = true
    ∧ offered onNoChallenge panel = true.
Proof.
  destruct (challenge_window_eligibility (Sample.challenging "p2" "steal" true)
              (Sample.player "p2" B 2 true 2) "p1"
              (Sample.player "p1" A 7 true 2) false None false)
    as (panel & Hp & Hiff & Hpass & _).
  - reflexivity.
  - intros pb [= <-]. eexists. split; [reflexivity|].
    eexists. vm_compute. reflexivity.
  - reflexivity.
  - reflexivity.
  - reflexivity.
  - assert (offered onChallenge panel = true) as H.
    { apply Hiff. repeat split; discriminate. }
    exists panel. split; [exact Hp|]. split; [exact H|].
    rewrite Hpass. exact H.
Defined.

(** ** Action selection *)

(** Each action control of the grid is enabled by the boolean the source
    negates into its [disabled] attribute; the super controls are rendered in
    super mode only. *)
Lemma enabled_actionButtons (view : GameView) (you_ : PublicPlayer)
    (ca : bool) (sel : option string) (thc : bool) (tt tg : string) :
  let en a :=
    enabled (selectOrUseTargetOf a)
      (Some (ActionGrid tt tg (actionButtons view you_ ca sel thc))) in
  let super := bool_decide (mode view = super_team) in
  let two := (2 <=? num_cards you_)%Z in
  en "income" = ca ∧ en "foreign_aid" = ca
  ∧ en "tax" = ca ∧ en "exchange" = ca
  ∧ en "coup" = ca && negb (coins you_ <? 7)%Z && truthy sel
  ∧ en "assassinate" = ca && negb (coins you_ <? 3)%Z && truthy sel
  ∧ en "steal" = ca && truthy sel && thc
  ∧ en "super_tax" = super && ca && two
  ∧ en "super_exchange" = super && ca && two
  ∧ en "super_assassinate"
    = super && ca && negb (coins you_ <? 3)%Z && truthy sel && two
  ∧ en "super_steal" = super && ca && truthy sel && thc && two
  ∧ en "super_coup" = super && ca && negb (coins you_ <? 12)%Z && truthy sel.
Proof.
  unfold enabled, actionButtons. simpl.
  destruct (bool_decide (mode view = super_team)), ca,
    (coins you_ <? 7)%Z, (coins you_ <? 3)%Z, (coins you_ <? 12)%Z,
    (truthy sel), thc, (2 <=? num_cards you_)%Z;
    vm_compute; repeat split.
Qed.

Lemma canAct_true (view : GameView) :
  phase view = action_selection →
  current_player view = Some (you view) →
  canAct view = true.
Proof.
  intros Hphase Hturn. unfold canAct. rewrite Hphase, Hturn.
  by rewrite (bool_decide_eq_true_2 (Some (you view) = Some (you view))).
Qed.

Lemma truthy_selected (sel : option string) :
  sel ≠ Some EmptyString → (truthy sel = true ↔ sel ≠ None).
Proof.
  intros Hsel. destruct sel as [t|]; simpl; [|done].
  rewrite negb_true_iff, bool_decide_eq_false. split; [done|].
  intros _ ->. done.
Qed.

Lemma targetHasCoins_true (view : GameView) (sel : option string) :
  sel ≠ Some EmptyString →
  (targetHasCoins view sel = true ↔
     ∃ t p, sel = Some t ∧ players view !! t = Some p ∧ (0 < coins p)%Z).
Proof.
  intros Hsel. unfold targetHasCoins, lookupTarget. destruct sel as [t|].
  - assert (truthy (Some t) = true) as -> by (by apply truthy_selected).
    destruct (players view !! t) as [p|] eqn:Hp.
    + rewrite Z.ltb_lt. split; [eauto|].
      intros (t' & p' & [= <-] & Hp' & Hc). congruence.
    + split; [done|]. intros (t' & p' & [= <-] & Hp' & _). congruence.
  - split; [done|]. intros (? & ? & [=] & _).
Qed.

Lemma GameLayout_action_selection (view : GameView) (you_ : PublicPlayer)
    (sel : option string) :
  phase view = action_selection →
  current_player view = Some (you view) →
  players view !! you view = Some you_ →
  sel ≠ Some EmptyString →
  (∀ t, sel = Some t → is_Some (players view !! t)) →
  ∃ tt tg,
    GameLayout view sel
    = Ok {| l_you := you_; l_seats := seats view you_;
            l_summary := buildCurrentActionSummary view;
            l_panel :=
              Some (ActionGrid tt tg
                      (actionButtons view you_ true sel
                         (targetHasCoins view sel))) |}.
Proof.
  intros Hphase Hturn Hyou Hsel Hfound.
  unfold GameLayout, ActionPanel, actionSelectionPanel.
  rewrite Hyou, Hphase, canAct_true by done.
  destruct sel as [t|].
  - assert (truthy (Some t) = true) as -> by (by apply truthy_selected).
    destruct (Hfound t eq_refl) as [p ->]. simpl. eauto.
  - simpl. eauto.
Qed.

(** X29. The action table.  In the action selection phase with the viewer as
    current player, and for a selection that is found: income, foreign aid,
    tax and exchange are enabled; coup needs 7 coins and a selected target,
    assassinate 3 coins and a selected target, steal a selected target that
    has coins; the super variants of tax, exchange, assassinate and steal
    need super mode and two influence cards on top; super coup needs super
    mode, 12 coins and a selected target, and no card count.  Without a
    selected target each of coup, assassinate, steal, super assassinate,
    super steal and super coup is disabled; dispatching one of these six
    sends it with the target and clears the selection, and dispatching any
    of the other six sends it without a target and keeps the selection. *)
Theorem action_selection_enabling (view : GameView) (you_ : PublicPlayer)
    (sel : option string) :
  phase view = action_selection →
  current_player view = Some (you view) →
  players view !! you view = Some you_ →
  sel ≠ Some EmptyString →
  (∀ t, sel = Some t → is_Some (players view !! t)) →
  ∃ page,
    GameLayout view sel = Ok page
    ∧ let en a := enabled (selectOrUseTargetOf a) (l_panel page) in
      let click a :=
        ui_step {| ui_view := view; ui_selected := sel |}
          (ButtonClick (selectOrUseTargetOf a)) in
      let rich :=
        ∃ t p, sel = Some t ∧ players view !! t = Some p ∧ (0 < coins p)%Z in
      let super := mode view = super_team ∧ (2 ≤ num_cards you_)%Z in
      en "income" = true ∧ en "foreign_aid" = true
      ∧ en "tax" = true ∧ en "exchange" = true
      ∧ (en "coup" = true ↔ (7 ≤ coins you_)%Z ∧ sel ≠ None)
      ∧ (en "assassinate" = true ↔ (3 ≤ coins you_)%Z ∧ sel ≠ None)
      ∧ (en "steal" = true ↔ rich)
      ∧ (en "super_tax" = true ↔ super)
      ∧ (en "super_exchange" = true ↔ super)
      ∧ (en "super_assassinate" = true ↔
           super ∧ (3 ≤ coins you_)%Z ∧ sel ≠ None)
      ∧ (en "super_steal" = true ↔ super ∧ rich)
      ∧ (en "super_coup" = true ↔
           mode view = super_team ∧ (12 ≤ coins you_)%Z ∧ sel ≠ None)
      ∧ (sel = None →
         en "coup" = false ∧ en "assassinate" = false ∧ en "steal" = false
         ∧ en "super_assassinate" = false ∧ en "super_steal" = false
         ∧ en "super_coup" = false)
      ∧ (∀ a, a ∈ ["coup"; "assassinate"; "steal"; "super_assassinate";
                   "super_steal"; "super_coup"] →
              en a = true →
              click a = ([sendAction a sel],
                         {| ui_view := view; ui_selected := None |}))
      ∧ (∀ a, a ∈ ["income"; "foreign_aid"; "tax"; "exchange"; "super_tax";
                   "super_exchange"] →
              en a = true →
              click a = ([sendAction a None],
                         {| ui_view := view; ui_selected := sel |})).
Proof.
  intros Hph Hturn Hyou Hsel Hfound.
  destruct (GameLayout_action_selection view you_ sel Hph Hturn Hyou Hsel
              Hfound) as (tt & tg & Hpage).
  eexists. split; [exact Hpage|]. cbv zeta. cbn [l_panel].
  destruct (enabled_actionButtons view you_ true sel
              (targetHasCoins view sel) tt tg)
    as (E1 & E2 & E3 & E4 & E5 & E6 & E7 & E8 & E9 & E10 & E11 & E12).
  pose proof (truthy_selected sel Hsel) as Ht.
  pose proof (targetHasCoins_true view sel Hsel) as Hc.
  assert (∀ t p, sel = Some t → players view !! t = Some p →
                 (0 < coins p)%Z → sel ≠ None) as Hrich by congruence.
  split; [by rewrite E1|]. split; [by rewrite E2|].
  split; [by rewrite E3|]. split; [by rewrite E4|].
  assert (∀ b : bool, true && b = b) as Htrue by done.
  split; [rewrite E5, !andb_true_iff, negb_true_iff, Z.ltb_ge, Ht; tauto|].
  split; [rewrite E6, !andb_true_iff, negb_true_iff, Z.ltb_ge, Ht; tauto|].
  split.
  { rewrite E7, !andb_true_iff, Ht, Hc. split; [tauto|]. intros H.
    split; [|exact H]. destruct H as (t & p & H1 & H2 & H3). eauto. }
  split; [rewrite E8, !andb_true_iff, bool_decide_eq_true, Z.leb_le; tauto|].
  split; [rewrite E9, !andb_true_iff, bool_decide_eq_true, Z.leb_le; tauto|].
  split.
  { rewrite E10, !andb_true_iff, negb_true_iff, Z.ltb_ge,
      bool_decide_eq_true, Z.leb_le, Ht. tauto. }
  split.
  { rewrite E11, !andb_true_iff, bool_decide_eq_true, Z.leb_le, Ht, Hc.
    split; [tauto|]. intros [Hs H]. repeat split; try tauto.
    destruct H as (t & p & H1 & H2 & H3). eauto. }
  split.
  { rewrite E12, !andb_true_iff, negb_true_iff, Z.ltb_ge,
      bool_decide_eq_true, Ht. tauto. }
  split.
  { intros ->. rewrite E5, E6, E7, E10, E11, E12. simpl.
    by rewrite ?andb_false_r. }
  split.
  - intros a Ha Hen. unfold ui_step. cbn [ui_view ui_selected].
    rewrite Hpage. cbn [l_panel]. rewrite Hen.
    unfold clickControl, selectOrUseTarget.
    assert (truthy sel = true) as Hts.
    { rewrite !elem_of_cons, elem_of_nil in Ha.
      destruct Ha as [->|[->|[->|[->|[->|[->|[]]]]]]];
        rewrite ?E5, ?E6, ?E7, ?E10, ?E11, ?E12 in Hen;
        rewrite ?andb_true_iff in Hen; tauto. }
    assert (a ∈ targetRequiredActions) as Hreq.
    { rewrite !elem_of_cons, elem_of_nil in Ha.
      destruct Ha as [->|[->|[->|[->|[->|[->|[]]]]]]];
        apply (bool_decide_unpack _); by vm_compute. }
    by rewrite (bool_decide_eq_true_2 _ Hreq), Hts.
  - intros a Ha Hen. unfold ui_step. cbn [ui_view ui_selected].
    rewrite Hpage. cbn [l_panel]. rewrite Hen.
    unfold clickControl, selectOrUseTarget.
    assert (a ∉ targetRequiredActions) as Hreq.
    { rewrite !elem_of_cons, elem_of_nil in Ha.
      destruct Ha as [->|[->|[->|[->|[->|[->|[]]]]]]];
        apply (bool_decide_unpack _); by vm_compute. }
    by rewrite (bool_decide_eq_false_2 _ Hreq).
Qed.

Lemma action_selection_enabling_witness :
  ∃ page,
    GameLayout (Sample.turn_of_p1 normal_team) (Some "p2") = Ok page
    ∧ coins (l_you page) = 7%Z
    ∧ enabled (selectOrUseTargetOf "coup") (l_panel page) = true
    ∧ ui_step {| ui_view := Sample.turn_of_p1 normal_team;
                 ui_selected := Some "p2" |}
        (ButtonClick (selectOrUseTargetOf "coup"))
      = ([sendAction "coup" (Some "p2")],
         {| ui_view := Sample.turn_of_p1 normal_team;
            ui_selected := None |}).
Proof.
  destruct (action_selection_enabling (Sample.turn_of_p1 normal_team)
              (Sample.player "p1" A 7 true 2) (Some "p2"))
    as (page & Hp & _ & _ & _ & _ & Hcoup & _ & _ & _ & _ & _ & _ & _ & _
        & Hsend & _).
  - reflexivity.
  - reflexivity.
  - reflexivity.
  - discriminate.
  - intros t [= <-]. eexists. vm_compute. reflexivity.
  - assert (enabled (selectOrUseTargetOf "coup") (l_panel page) = true)
      as Hen.
    { apply Hcoup. split; [simpl; lia | discriminate]. }
    exists page. split; [exact Hp|]. split; [|split; [exact Hen|]].
    + vm_compute in Hp. injection Hp as <-. reflexivity.
    + apply Hsend; [apply list_elem_of_here | exact Hen].
Defined.

(** C1. A selection that is no longer found.  [p1], at 7 coins and on their
    turn, selects [p2] and has coup enabled; the next snapshot holds no
    [p2].  The selection is kept, and the render of the action grid reads
    [view.players[selectedTarget].name] (line 855) without the guard that
    the derived value of lines 79-82 puts on the same lookup: it raises, and
    no control is rendered, where the action table has coup enabled. *)
Theorem selected_target_gone :
  let mounted :=
    {| ui_view := Sample.turn_of_p1 normal_team; ui_selected := None |} in
  let s1 := ui_run mounted [SeatClick 1] in
  let s2 := ui_run mounted [SeatClick 1; Snapshot Later.p2_gone] in
  (ui_selected s1 = Some "p2"
   ∧ ∃ page, GameLayout (ui_view s1) (ui_selected s1) = Ok page
             ∧ enabled (selectOrUseTargetOf "coup") (l_panel page) = true)
  ∧ ui_view s2 = Later.p2_gone
  ∧ ui_selected s2 = Some "p2"
  ∧ phase (ui_view s2) = action_selection
  ∧ current_player (ui_view s2) = Some (you (ui_view s2))
  ∧ coins <$> players (ui_view s2) !! you (ui_view s2) = Some 7%Z
  ∧ missing (ui_view s2) "p2"
  ∧ targetHasCoins (ui_view s2) (ui_selected s2) = false
  ∧ GameLayout (ui_view s2) (ui_selected s2) = TypeError.
Proof.
  cbv zeta. split.
  - split; [by vm_compute|]. eexists. split; by vm_compute.
  - repeat split; try by vm_compute.
    apply (bool_decide_unpack _). by vm_compute.
Qed.

(** ** Target selection over time *)

(** C5, as the code has it. Dispatching a targeted action sends it with the
    selected target and resets the selection to null at once, before the
    server answers; a new snapshot, whatever its phase, leaves the selection
    as it is. *)
Theorem selection_reset_on_dispatch (s s' : UIState) (a : string)
    (cmds : list Command) :
  a ∈ targetRequiredActions →
  ui_step s (ButtonClick (selectOrUseTargetOf a)) = (cmds, s') →
  cmds ≠ [] →
  cmds = [sendAction a (ui_selected s)]
  ∧ ui_selected s' = None
  ∧ ui_view s' = ui_view s
  ∧ ∀ v, ui_step s (Snapshot v)
         = ([], {| ui_view := v; ui_selected := ui_selected s |}).
Proof.
  intros Ha Hstep Hsent. unfold ui_step in Hstep.
  destruct (GameLayout (ui_view s) (ui_selected s)) as [page|];
    [|injection Hstep as <- <-; done].
  destruct (enabled (selectOrUseTargetOf a) (l_panel page));
    [|injection Hstep as <- <-; done].
  unfold clickControl, selectOrUseTarget in Hstep.
  rewrite (bool_decide_eq_true_2 _ Ha) in Hstep.
  destruct (truthy (ui_selected s)); simpl in Hstep;
    injection Hstep as <- <-; done.
Qed.

Lemma selection_reset_on_dispatch_witness :
  let s := {| ui_view := Sample.turn_of_p1 normal_team;
              ui_selected := Some "p2" |} in
  let r := ui_step s (ButtonClick (selectOrUseTargetOf "coup")) in
  r.1 = [sendAction "coup" (Some "p2")] ∧ ui_selected r.2 = None.
Proof.
  intros s r.
  destruct (selection_reset_on_dispatch s r.2 "coup" r.1)
    as (H1 & H2 & _).
  - unfold targetRequiredActions. apply list_elem_of_here.
  - vm_compute. reflexivity.
  - vm_compute. discriminate.
  - exact (conj H1 H2).
Defined.

(** C5 as stated fails: a target selected during action selection is still
    selected after the snapshot moves to the block window, and a seat click
    in the block window selects a target as well. *)
Lemma selection_phase_counterexample :
  let mounted v := {| ui_view := v; ui_selected := None |} in
  let s1 := ui_run (mounted (Sample.turn_of_p1 super_team))
              [SeatClick 1; Snapshot (Sample.blocking "p1" "steal")] in
  let s2 := ui_run (mounted (Sample.blocking "p1" "steal")) [SeatClick 1] in
  (phase (ui_view s1) = block_window ∧ ui_selected s1 = Some "p2")
  ∧ (phase (ui_view s2) = block_window ∧ ui_selected s2 = Some "p2").
Proof. vm_compute. done. Qed.

(** ** Dangling references *)





(** ** Poll session *)

Section PollSession.

Lemma poll_inv_start (view0 : option GameView) : poll_inv (poll_start view0).
Proof. left. done. Qed.

Lemma poll_inv_step (s s' : PollState) (e : PollEvent) :
  poll_inv s → poll_step s e = Some s' → poll_inv s'.
Proof.
  intros Hinv Hstep. destruct s as [c h n ts f]. unfold poll_inv in *.
  simpl in *.
  destruct e; simpl in Hstep.
  - case_bool_decide; [|done]. injection Hstep as <-. simpl.
    destruct Hinv as [[-> ->] | [[-> _] | (_ & -> & _)]]; try lia.
    destruct c; simpl; eauto.
  - case_bool_decide; [|done]. injection Hstep as <-. simpl.
    destruct Hinv as [[-> ->] | [[-> _] | (_ & -> & _)]]; try lia.
    destruct c; simpl; eauto.
  - destruct Hinv as [[-> ->] | [[-> ->] | (_ & -> & ->)]]; try done.
    injection Hstep as <-. simpl. eauto.
  - injection Hstep as <-. simpl.
    destruct Hinv as [[-> ->] | [[-> ->] | (_ & -> & ->)]]; eauto.
Qed.

Lemma poll_inv_run (es : list PollEvent) (s s' : PollState) :
  poll_inv s → poll_run s es = Some s' → poll_inv s'.
Proof.
  revert s. induction es as [|e es IH]; intros s Hinv Hrun; simpl in Hrun.
  - by injection Hrun as <-.
  - destruct (poll_step s e) as [s1|] eqn:Hstep; [|done].
    eapply IH; [|done]. by eapply poll_inv_step.
Qed.

(** One step of a cancelled session: the held view stays, no timer is armed,
    and a fetch starts only by using up a timer armed earlier. *)
Lemma cancelled_step (s s' : PollState) (e : PollEvent) :
  cancel s = true → poll_step s e = Some s' →
  cancel s' = true ∧ held s' = held s
  ∧ fetches s' + length (timers s') ≤ fetches s + length (timers s)
  ∧ length (timers s') ≤ length (timers s).
Proof.
  intros Hc Hstep. destruct s as [c h n ts f]. simpl in *. subst c.
  destruct e; simpl in Hstep.
  - case_bool_decide; [|done]. injection Hstep as <-. simpl. auto with lia.
  - case_bool_decide; [|done]. injection Hstep as <-. simpl. auto with lia.
  - destruct ts as [|t ts]; [done|]. injection Hstep as <-. simpl.
    auto with lia.
  - injection Hstep as <-. simpl. auto with lia.
Qed.

Lemma cancelled_run (es : list PollEvent) (s s' : PollState) :
  cancel s = true → poll_run s es = Some s' →
  cancel s' = true ∧ held s' = held s
  ∧ fetches s' + length (timers s') ≤ fetches s + length (timers s)
  ∧ length (timers s') ≤ length (timers s).
Proof.
  revert s. induction es as [|e es IH]; intros s Hc Hrun; simpl in Hrun.
  - injection Hrun as <-. auto with lia.
  - destruct (poll_step s e) as [s1|] eqn:Hstep; [|done].
    destruct (cancelled_step s s1 e Hc Hstep) as (Hc1 & Hh1 & Hf1 & Ht1).
    destruct (IH s1 Hc1 Hrun) as (Hc' & Hh' & Hf' & Ht').
    rewrite Hh', Hh1. auto with lia.
Qed.

End PollSession.

(** C9. For every state a poll session reaches: at most one fetch is
    outstanding, and never together with a pending timer.  Once [cancel] is
    set, whatever happens next, the held view is never replaced and no timer
    is armed again; a response that arrives then is taken and dropped, and
    the only fetch that can still start is the one of a timer armed before
    the cancellation.  Before cancellation a failed fetch changes nothing
    but to arm the timer with the same [POLL_MS]. *)
Theorem poll_session (view0 : option GameView) (es : list PollEvent)
    (s : PollState) :
  poll_run (poll_start view0) es = Some s →
  in_flight s + length (timers s) ≤ 1
  ∧ (cancel s = true →
     (∀ es' s', poll_run s es' = Some s' →
                cancel s' = true ∧ held s' = held s
                ∧ length (timers s') ≤ length (timers s)
                ∧ fetches s' ≤ fetches s + length (timers s))
     ∧ (0 < in_flight s →
        ∀ v, poll_step s (Resolve v)
             = Some {| cancel := true; held := held s; in_flight := 0;
                       timers := []; fetches := fetches s |}))
  ∧ (cancel s = false →
     (0 < in_flight s →
      poll_step s Reject
      = Some {| cancel := false; held := held s; in_flight := 0;
                timers := [POLL_MS]; fetches := fetches s |}
      ∧ ∀ v, poll_step s (Resolve v)
             = Some {| cancel := false; held := Some v; in_flight := 0;
                       timers := [POLL_MS]; fetches := fetches s |})
     ∧ (in_flight s = 0 → timers s = [POLL_MS])).
Proof.
  intros Hrun.
  pose proof (poll_inv_run es _ s (poll_inv_start view0) Hrun) as Hinv.
  destruct s as [c h n ts f]. unfold poll_inv in Hinv. simpl in *.
  split; [|split].
  - destruct Hinv as [[-> ->] | [[-> ->] | (_ & -> & ->)]]; simpl; lia.
  - intros ->. split.
    + intros es' s' Hrun'.
      destruct (cancelled_run es' (Build_PollState true h n ts f) s' eq_refl
                  Hrun') as (? & ? & ? & ?).
      simpl in *. auto with lia.
    + intros Hn v.
      destruct Hinv as [[-> ->] | [[-> ->] | (_ & -> & ->)]]; try lia. done.
  - intros ->. split.
    + intros Hn.
      destruct Hinv as [[-> ->] | [[-> ->] | (? & _)]]; try lia; done.
    + intros ->. destruct Hinv as [[? _] | [[_ ->] | (? & _)]]; done.
Qed.

Lemma poll_session_witness :
  let stopped :=
    {| cancel := true; held := None; in_flight := 1; timers := [];
       fetches := 2 |} in
  poll_run (poll_start None) [Reject; TimerFires; Cleanup] = Some stopped
  ∧ poll_step stopped (Resolve Sample.lobby_of_three)
    = Some {| cancel := true; held := None; in_flight := 0; timers := [];
              fetches := 2 |}
  ∧ ∀ s', poll_run stopped [Resolve Sample.lobby_of_three; Cleanup] = Some s' →
          held s' = None.
Proof.
  intros stopped.
  destruct (poll_session None [Reject; TimerFires; Cleanup] stopped eq_refl)
    as (_ & Hstop & _).
  destruct (Hstop eq_refl) as [Hafter Hlate].
  split; [reflexivity|]. split.
  - apply Hlate. simpl. lia.
  - intros s' Hrun. by destruct (Hafter _ s' Hrun) as (_ & Hheld & _).
Defined.

(** * Further properties of the code *)

(** ** Seats *)

Lemma first_index_exists (l : list string) (x : string) :
  x ∈ l → ∃ k, l !! k = Some x ∧ ∀ j, j < k → l !! j ≠ Some x.
Proof.
  induction l as [|y l IH]; intros Hx; [by apply elem_of_nil in Hx|].
  destruct (decide (y = x)) as [->|Hne].
  - exists 0. split; [done|]. intros j Hj. lia.
  - apply elem_of_cons in Hx as [->|Hx]; [done|].
    destruct (IH Hx) as (k & Hk & Hmin). exists (S k). split; [done|].
    intros [|j] Hj; simpl; [congruence|]. apply Hmin. lia.
Qed.

(** The rotation is the canonical order itself or that order cut at the
    viewer's first position and swapped. *)
Lemma rotatedIds_cases (l : list string) (you_ : PublicPlayer) :
  ((player_id you_ ∉ l) ∧ rotatedIds l you_ = l)
  ∨ (∃ i rest, l !! i = Some (player_id you_)
               ∧ rotatedIds l you_ = drop i l ++ take i l
               ∧ rotatedIds l you_ = player_id you_ :: rest).
Proof.
  destruct (decide (player_id you_ ∈ l)) as [Hin|Hout].
  - right. destruct (first_index_exists l _ Hin) as (i & Hi & Hmin).
    pose proof (rotatedIds_found l you_ i Hi Hmin) as Hrot.
    exists i. rewrite Hrot.
    rewrite (drop_S l (player_id you_) i Hi). simpl. eauto.
  - left. split; [done|]. unfold rotatedIds, indexOf.
    by rewrite indexOf_from_absent.
Qed.

(** X1. The seats are the players of [turn_order] that [players] holds, in
    rotated order: the rotation drops no seat and adds none, and keeps the
    dead players. *)
Theorem seats_permutation (view : GameView) (you_ : PublicPlayer) :
  seats view you_ ≡ₚ omap (fun id => players view !! id) (turn_order view)
  ∧ ∀ id p, id ∈ turn_order view → players view !! id = Some p →
            p ∈ seats view you_.
Proof.
  assert (rotatedIds (turn_order view) you_ ≡ₚ turn_order view) as Hperm.
  { destruct (rotatedIds_cases (turn_order view) you_)
      as [[_ ->] | (i & rest & _ & -> & _)]; [done|].
    rewrite Permutation_app_comm. by rewrite take_drop. }
  split.
  - unfold seats. by rewrite Hperm.
  - intros id p Hid Hp. unfold seats. apply list_elem_of_omap.
    exists id. split; [|done]. by rewrite Hperm.
Qed.

(** X2. Rotating an order that is already rotated for the same viewer
    changes nothing. *)
Theorem rotatedIds_idempotent (l : list string) (you_ : PublicPlayer) :
  rotatedIds (rotatedIds l you_) you_ = rotatedIds l you_.
Proof.
  destruct (rotatedIds_cases l you_)
    as [[Hout ->] | (i & rest & _ & _ & ->)].
  - unfold rotatedIds, indexOf. by rewrite indexOf_from_absent.
  - rewrite (rotatedIds_found _ you_ 0); [|done|intros j Hj; lia].
    by rewrite drop_0, take_0, app_nil_r.
Qed.

(** X3. A viewer who sits at the table gets the first seat, the one drawn at
    the bottom. *)
Theorem viewer_first_seat (view : GameView) (you_ : PublicPlayer) :
  player_id you_ ∈ turn_order view →
  players view !! player_id you_ = Some you_ →
  head (seats view you_) = Some you_
  ∧ (head (seatClasses view you_)
     = Some "bottom-4 left-1/2 -translate-x-1/2").
Proof.
  intros Hin Hyou.
  destruct (rotatedIds_cases (turn_order view) you_)
    as [[Hout _] | (i & rest & _ & _ & Hrot)]; [done|].
  assert (∃ tl, seats view you_ = you_ :: tl) as [tl Hseats].
  { unfold seats. rewrite Hrot. simpl. rewrite Hyou. eauto. }
  unfold seatClasses. rewrite Hseats. split; [done|]. simpl.
  unfold seatPositionClass. by repeat case_bool_decide.
Qed.

Lemma viewer_first_seat_witness :
  head (seats (Sample.blocking "p3" "coup") (Sample.player "p3" A 0 true 1))
  = Some (Sample.player "p3" A 0 true 1).
Proof.
  refine (proj1 (viewer_first_seat (Sample.blocking "p3" "coup")
                   (Sample.player "p3" A 0 true 1) _ eq_refl)).
  simpl. rewrite !elem_of_cons. tauto.
Defined.

(** X4. At a table of four or of six every seat has a place of its own;
    at a table of any other size all the seats are drawn at the same place,
    the bottom one. *)
Theorem seat_positions (total i j : nat) :
  i < total → j < total →
  (total = 4 ∨ total = 6 →
   seatPositionClass i total = seatPositionClass j total → i = j)
  ∧ (total ≠ 4 → total ≠ 6 →
     seatPositionClass i total = seatPositionClass j total).
Proof.
  intros Hi Hj. split.
  - intros [-> | ->] Heq.
    + destruct i as [|[|[|[|i]]]], j as [|[|[|[|j]]]]; try lia;
        by vm_compute in Heq.
    + destruct i as [|[|[|[|[|[|i]]]]]], j as [|[|[|[|[|[|j]]]]]]; try lia;
        by vm_compute in Heq.
  - intros H4 H6. unfold seatPositionClass.
    by rewrite !bool_decide_eq_false_2.
Qed.

Lemma seat_positions_witness :
  seatPositionClass 1 5 = seatPositionClass 3 5.
Proof.
  apply (seat_positions 5 1 3); lia.
Defined.

(** ** Target selection and dispatch *)

Lemma GameLayout_Ok_inv (view : GameView) (sel : option string)
    (page : Layout) :
  GameLayout view sel = Ok page →
  players view !! you view = Some (l_you page)
  ∧ l_seats page = seats view (l_you page)
  ∧ l_summary page = buildCurrentActionSummary view
  ∧ ActionPanel view (l_you page) (canAct view) sel
      (targetHasCoins view sel) = Ok (l_panel page).
Proof.
  unfold GameLayout. destruct (players view !! you view) as [you_|]; [|done].
  destruct (ActionPanel view you_ (canAct view) sel
              (targetHasCoins view sel)) as [panel|] eqn:Hp; [|done].
  simpl. intros [= <-]. done.
Qed.

(** X5. Clicks on a dead seat, a teammate's seat or the viewer's own seat
    are ignored.  A click on a living opponent's seat selects it, or
    deselects it when it was the selection; two such clicks in a row end on
    the former selection only when that was this seat, and on no selection
    otherwise. *)
Theorem seat_click_toggle (you_ p : PublicPlayer) (prev : option string) :
  (alive p = false ∨ team p = team you_ ∨ player_id p = player_id you_ →
   handleSeatClick you_ p prev = prev)
  ∧ (alive p = true → team p ≠ team you_ →
     player_id p ≠ player_id you_ →
     handleSeatClick you_ p prev
     = (if bool_decide (prev = Some (player_id p)) then None
        else Some (player_id p))
     ∧ handleSeatClick you_ p (handleSeatClick you_ p prev)
       = (if bool_decide (prev = Some (player_id p)) then prev else None)).
Proof.
  unfold handleSeatClick. split.
  - intros [-> | [Ht | Hid]]; [done| |].
    + destruct (alive p); simpl; [|done].
      by rewrite (bool_decide_eq_true_2 _ Ht).
    + destruct (alive p); simpl; [|done].
      case_bool_decide; [done|]. by rewrite (bool_decide_eq_true_2 _ Hid).
  - intros -> Ht Hid. simpl.
    rewrite (bool_decide_eq_false_2 _ Ht), (bool_decide_eq_false_2 _ Hid).
    split; [done|].
    destruct (decide (prev = Some (player_id p))) as [->|Hprev].
    + rewrite (bool_decide_eq_true_2 (Some (player_id p) = Some _)) by done.
      by rewrite (bool_decide_eq_false_2 (None = Some _)).
    + rewrite (bool_decide_eq_false_2 _ Hprev).
      by rewrite (bool_decide_eq_true_2 (Some (player_id p) = Some _)).
Qed.

Lemma seat_click_toggle_witness :
  handleSeatClick (Sample.player "p1" A 7 true 2)
    (Sample.player "p2" B 2 true 2)
    (handleSeatClick (Sample.player "p1" A 7 true 2)
       (Sample.player "p2" B 2 true 2) (Some "p4"))
  = None.
Proof.
  destruct (seat_click_toggle (Sample.player "p1" A 7 true 2)
              (Sample.player "p2" B 2 true 2) (Some "p4")) as [_ H].
  destruct H as [_ H]; [reflexivity | discriminate | discriminate |].
  exact H.
Defined.

(** X6. While the snapshot stays the same, whatever is clicked, the selected
    target is null or the id of a seated player of that snapshot who is
    alive and on the other team. *)
Theorem selection_is_living_opponent (view : GameView)
    (es : list UIEvent) (id : string) :
  (∀ e, e ∈ es → ∀ v, e ≠ Snapshot v) →
  ui_selected (ui_run {| ui_view := view; ui_selected := None |} es)
  = Some id →
  ∃ you_ p,
    players view !! you view = Some you_
    ∧ p ∈ seats view you_ ∧ player_id p = id
    ∧ alive p = true ∧ team p ≠ team you_.
Proof.
  set (good sel :=
         sel = None ∨
         ∃ you_ p, sel = Some (player_id p)
                   ∧ players view !! you view = Some you_
                   ∧ p ∈ seats view you_
                   ∧ alive p = true ∧ team p ≠ team you_).
  assert (∀ es s, (∀ e, e ∈ es → ∀ v, e ≠ Snapshot v) →
                  ui_view s = view → good (ui_selected s) →
                  good (ui_selected (ui_run s es))) as Hrun.
  { clear es id. induction es as [|e es IH]; intros s Hes Hv Hgood; [done|].
    simpl. apply IH.
    - intros e' He'. apply Hes. by right.
    - destruct e as [i|c|v]; simpl.
      + destruct (GameLayout _ _); [|done]. by destruct (_ !! i).
      + destruct (GameLayout _ _) as [page|]; [|done].
        destruct (enabled c (l_panel page)); [|done].
        by destruct (clickControl (ui_selected s) c).
      + exfalso. by eapply (Hes (Snapshot v)); [left|].
    - destruct e as [i|c|v]; simpl.
      + destruct (GameLayout (ui_view s) (ui_selected s)) as [page|] eqn:Hp;
          [|done].
        destruct (l_seats page !! i) as [p|] eqn:Hi; [|done]. simpl.
        apply GameLayout_Ok_inv in Hp as (Hyou & Hseats & _).
        rewrite Hv in *. unfold handleSeatClick.
        destruct (alive p) eqn:Halive; simpl; [|done].
        case_bool_decide as Ht; [done|].
        case_bool_decide; [done|].
        case_bool_decide; [by left|]. right.
        exists (l_you page), p. repeat split; try done.
        rewrite <- Hseats. by eapply list_elem_of_lookup_2.
      + destruct (GameLayout _ _) as [page|]; [|done].
        destruct (enabled c (l_panel page)); [|done].
        destruct c; simpl; try done.
        unfold selectOrUseTarget.
        repeat case_bool_decide; simpl; try done;
          destruct (truthy (ui_selected s)); simpl; try done; by left.
      + exfalso. by eapply (Hes (Snapshot v)); [left|]. }
  intros Hes Hsel.
  destruct (Hrun es {| ui_view := view; ui_selected := None |} Hes eq_refl)
    as [Hnone | (you_ & p & Hsome & ? & ? & ? & ?)]; [by left| |].
  - congruence.
  - rewrite Hsel in Hsome. injection Hsome as ->. eauto 10.
Qed.

Lemma selection_is_living_opponent_witness :
  ∃ you_ p,
    players (Sample.turn_of_p1 super_team)
      !! you (Sample.turn_of_p1 super_team) = Some you_
    ∧ p ∈ seats (Sample.turn_of_p1 super_team) you_
    ∧ player_id p = "p2" ∧ alive p = true ∧ team p ≠ team you_.
Proof.
  apply (selection_is_living_opponent (Sample.turn_of_p1 super_team)
           [SeatClick 3; SeatClick 1]).
  - intros e He v. rewrite !elem_of_cons, elem_of_nil in He.
    destruct He as [-> | [-> | []]]; discriminate.
  - vm_compute. reflexivity.
Defined.

Lemma enabled_ActionGrid (c : Control) (tt tg : string) (bs : list Button) :
  enabled c (Some (ActionGrid tt tg bs)) = true ↔ Build_Button c false ∈ bs.
Proof. unfold enabled. simpl. apply bool_decide_eq_true. Qed.


Lemma blockPanel_controls (view : GameView) (you_ : PublicPlayer)
    (c : Control) :
  offered c (blockPanel view you_) = true →
  c = onNoBlock
  ∨ ∃ bt, c = onBlock bt
          ∧ bt ∈ ["block_foreign_aid"; "block_steal_captain";
                  "block_steal_ambassador"; "block_assassinate";
                  "block_coup"].
Proof.
  destruct (pending_action view) as [act|] eqn:Hact;
    [|unfold blockPanel; by rewrite Hact].
  destruct (blockPanel_shape view you_ act Hact)
    as [(_ & t & ->) | [(_ & _ & t & ->) | (_ & _ & t & ->)]]; try done.
  rewrite offered_Prompt, blockButtons_controls.
  intros [[_ ->] | [[_ [-> | ->]] | [[_ ->] | [[_ ->] | ->]]]];
    [right..|by left]; eexists; (split; [reflexivity|]);
    rewrite !elem_of_cons; tauto.
Qed.

Lemma challengePanel_controls (view : GameView) (you_ : PublicPlayer)
    (c : Control) :
  offered c (challengePanel view you_) = true →
  c = onChallenge ∨ c = onNoChallenge.
Proof.
  assert (∀ text b, offered c (challengeResult text b) = true →
                    c = onChallenge ∨ c = onNoChallenge) as Hres.
  { intros text [|]; [|done]. unfold challengeResult, offered. simpl.
    rewrite bool_decide_eq_true, !elem_of_cons, elem_of_nil. tauto. }
  unfold challengePanel.
  destruct (pending_action view) as [pa|], (pending_block view) as [pb|];
    try done.
  - destruct (players view !! blocker_id pb), (players view !! actor_id pa);
      try done.
    repeat case_bool_decide; apply Hres.
  - destruct (players view !! actor_id pa); try done.
    repeat case_bool_decide; apply Hres.
Qed.

(** A button of the action grid that is not disabled: it is the viewer's
    turn, and a targeted action has its target. *)
Lemma actionButtons_enabled (view : GameView) (you_ : PublicPlayer)
    (ca : bool) (sel : option string) (thc : bool) (c : Control) :
  Build_Button c false ∈ actionButtons view you_ ca sel thc →
  ca = true
  ∧ ∃ a, c = selectOrUseTargetOf a
         ∧ (a ∈ targetRequiredActions → truthy sel = true)
         ∧ (a ∉ targetRequiredActions →
            a ∈ ["income"; "foreign_aid"; "tax"; "super_tax"; "exchange";
                 "super_exchange"]).
Proof.
  unfold actionButtons, actionBtn.
  destruct (bool_decide (mode view = super_team)); simpl;
    rewrite !elem_of_cons, elem_of_nil; intros H;
    repeat (destruct H as [H|H]); try done;
    injection H as -> Hd; symmetry in Hd;
    rewrite ?orb_false_iff, ?negb_false_iff in Hd;
    (split; [tauto|]); eexists; (split; [reflexivity|]); split;
    first
      [ by (intros _; tauto)
      | by (intros Hm; apply (bool_decide_pack _) in Hm; vm_compute in Hm)
      | by (intros _; apply (bool_decide_unpack _); vm_compute)
      | by (intros Hn; exfalso; apply Hn; apply (bool_decide_unpack _);
            vm_compute) ].
Qed.



(** ** Panels by phase *)

(** X8. The controls of a rendered panel belong to its phase: the lobby has
    the start button only, the challenge window "Challenge" and "Pass", the
    block window the five block buttons and "Let it through", action
    selection the action buttons; the exchange, loss and game-over panels
    put no control of [ActionPanel] on the page. *)
Theorem phase_controls (view : GameView) (you_ : PublicPlayer) (ca : bool)
    (sel : option string) (thc : bool) (panel : option Element)
    (c : Control) :
  ActionPanel view you_ ca sel thc = Ok panel →
  offered c panel = true →
  match phase view with
  | lobby => c = onStartGame
  | challenge_window => c = onChallenge ∨ c = onNoChallenge
  | block_window =>
      c = onNoBlock
      ∨ ∃ bt, c = onBlock bt
              ∧ bt ∈ ["block_foreign_aid"; "block_steal_captain";
                      "block_steal_ambassador"; "block_assassinate";
                      "block_coup"]
  | action_selection =>
      ∃ a, c = selectOrUseTargetOf a
           ∧ a ∈ ["income"; "foreign_aid"; "coup"; "super_coup";
                  "assassinate"; "super_assassinate"; "steal";
                  "super_steal"; "tax"; "super_tax"; "exchange";
                  "super_exchange"]
  | swap_choice | loss_choice | game_over => False
  end.
Proof.
  unfold ActionPanel. intros Hp Hc. destruct (phase view).
  - injection Hp as Hp; subst panel. unfold offered in Hc. simpl in Hc.
    apply bool_decide_eq_true in Hc. by apply list_elem_of_singleton in Hc.
  - unfold actionSelectionPanel in Hp.
    assert (∃ tt tg, panel = Some (ActionGrid tt tg
                                     (actionButtons view you_ ca sel thc)))
      as (tt & tg & ->).
    { destruct sel as [t|]; simpl in Hp;
        [case_bool_decide; simpl in Hp;
         [|destruct (players view !! t); simpl in Hp; [|done]]|];
        injection Hp as Hp; subst panel; eauto. }
    unfold offered, actionButtons, actionBtn in Hc. simpl in Hc.
    apply bool_decide_eq_true in Hc.
    destruct (bool_decide (mode view = super_team)); simpl in Hc;
      rewrite !elem_of_cons, elem_of_nil in Hc;
      repeat (destruct Hc as [Hc|Hc]); try done; subst c;
      eexists; (split; [reflexivity|]);
      by (apply (bool_decide_unpack _); vm_compute).
  - injection Hp as Hp; subst panel. exact (blockPanel_controls view you_ c Hc).
  - injection Hp as Hp; subst panel.
    exact (challengePanel_controls view you_ c Hc).
  - injection Hp as Hp; subst panel. by vm_compute in Hc.
  - injection Hp as Hp; subst panel. by vm_compute in Hc.
  - injection Hp as Hp; subst panel. by vm_compute in Hc.
Qed.

Lemma phase_controls_witness :
  onNoBlock = onNoBlock
  ∨ ∃ bt, onNoBlock = onBlock bt
          ∧ bt ∈ ["block_foreign_aid"; "block_steal_captain";
                  "block_steal_ambassador"; "block_assassinate";
                  "block_coup"].
Proof.
  exact (phase_controls (Sample.blocking "p1" "coup")
           (Sample.player "p1" A 7 true 2) false None false _ onNoBlock
           eq_refl eq_refl).
Defined.

(** ** Block window, the other blocks *)

(** X9. In the block window a block button never comes without the pass
    button, and nothing is offered to a viewer on the actor's team. *)
Theorem block_needs_pass (view : GameView) (you_ : PublicPlayer)
    (act : PublicAction) (c : Control) :
  pending_action view = Some act →
  offered c (blockPanel view you_) = true →
  offered onNoBlock (blockPanel view you_) = true
  ∧ isSameTeam view act you_ = false.
Proof.
  intros Hact Hc.
  destruct (blockPanel_shape view you_ act Hact)
    as [(_ & t & Hp) | [(_ & _ & t & Hp) | (Hs & _ & t & Hp)]];
    rewrite Hp in *; try done.
  split; [|done]. apply offered_Prompt, blockButtons_controls. tauto.
Qed.

Lemma block_needs_pass_witness :
  offered onNoBlock
    (blockPanel (Sample.blocking "p1" "coup")
       (Sample.player "p1" A 7 true 2)) = true.
Proof.
  exact (proj1 (block_needs_pass (Sample.blocking "p1" "coup")
                  (Sample.player "p1" A 7 true 2)
                  (Sample.act "p2" "coup" (Some "p1"))
                  (onBlock "block_coup") eq_refl eq_refl)).
Defined.

(** X10. Who is offered which block, for an actor id that names no
    inherited member: "Block Foreign Aid" goes to every viewer whose team
    differs from that of the actor of a pending [foreign_aid], when the
    actor is found; the two steal blocks go together to the target of a
    pending [steal] or [super_steal]; the assassinate block goes to the
    target of a pending [assassinate] or [super_assassinate]; a target on
    the actor's own team gets none. *)
Theorem block_offers (view : GameView) (you_ : PublicPlayer)
    (act : PublicAction) :
  pending_action view = Some act →
  actor_id act ∉ inheritedMembers →
  let offer bt := offered (onBlock bt) (blockPanel view you_) = true in
  let target := target_id act = Some (player_id you_) in
  (offer "block_foreign_aid" ↔
     action act = "foreign_aid"
     ∧ ∃ actor, players view !! actor_id act = Some actor
                ∧ team actor ≠ team you_)
  ∧ (offer "block_steal_captain" ↔
       (action act = "steal" ∨ action act = "super_steal") ∧ target
       ∧ isSameTeam view act you_ = false)
  ∧ (offer "block_steal_ambassador" ↔ offer "block_steal_captain")
  ∧ (offer "block_assassinate" ↔
       (action act = "assassinate" ∨ action act = "super_assassinate")
       ∧ target ∧ isSameTeam view act you_ = false).
Proof.
  intros Hact _ offer target. unfold offer, target.
  assert (canBlockSteal act you_ = true ↔
            (action act = "steal" ∨ action act = "super_steal")
            ∧ target_id act = Some (player_id you_)) as Hsteal.
  { unfold canBlockSteal, isTarget, seq_opt.
    by rewrite andb_true_iff, orb_true_iff, !bool_decide_eq_true. }
  assert (canBlockAssassinate act you_ = true ↔
            (action act = "assassinate" ∨ action act = "super_assassinate")
            ∧ target_id act = Some (player_id you_)) as Hass.
  { unfold canBlockAssassinate, isTarget, seq_opt.
    by rewrite andb_true_iff, orb_true_iff, !bool_decide_eq_true. }
  assert (canBlockForeignAid view act you_ = true ↔
            action act = "foreign_aid"
            ∧ ∃ actor, players view !! actor_id act = Some actor
                       ∧ team actor ≠ team you_) as Hfa.
  { unfold canBlockForeignAid, isSameTeam.
    rewrite !andb_true_iff, negb_true_iff, !bool_decide_eq_true.
    destruct (players view !! actor_id act) as [actor|].
    - rewrite bool_decide_eq_false. split.
      + intros [[Ha Ht] _]. eauto.
      + intros (Ha & actor' & [= <-] & Ht). eauto.
    - split; [by intros [_ [? ?]]|]. by intros (_ & ? & ? & _). }
  destruct (blockPanel_shape view you_ act Hact)
    as [(Hs & t & ->) | [(Hs & Hb & t & ->) | (Hs & Hb & t & ->)]].
  - (* the actor's team *)
    rewrite !offered_Notice, Hs.
    repeat split; try done; try (intros (_ & _ & [=])).
    intros (_ & actor & Hactor & Ht). unfold isSameTeam in Hs.
    rewrite Hactor in Hs. by apply bool_decide_eq_true in Hs.
  - (* a targeted action aimed at somebody else *)
    rewrite !offered_Notice.
    apply andb_true_iff in Hb as [Hta Hnt]. apply negb_true_iff in Hnt.
    unfold isTarget, seq_opt in Hnt. apply bool_decide_eq_false in Hnt.
    repeat split; try done; try (by intros (_ & ? & _)).
    intros (Ha & _). rewrite Ha in Hta. by vm_compute in Hta.
  - rewrite !offered_Prompt, !blockButtons_controls, Hsteal, Hass, Hfa.
    intuition congruence.
Qed.

Lemma block_offers_witness :
  offered (onBlock "block_steal_captain")
    (blockPanel (Sample.blocking "p1" "steal")
       (Sample.player "p1" A 7 true 2)) = true
  ∧ offered (onBlock "block_steal_ambassador")
      (blockPanel (Sample.blocking "p1" "steal")
         (Sample.player "p1" A 7 true 2)) = true.
Proof.
  destruct (block_offers (Sample.blocking "p1" "steal")
              (Sample.player "p1" A 7 true 2)
              (Sample.act "p2" "steal" (Some "p1")) eq_refl)
    as (_ & Hcaptain & Hambassador & _).
  { apply (bool_decide_unpack _). by vm_compute. }
  assert (offered (onBlock "block_steal_captain")
            (blockPanel (Sample.blocking "p1" "steal")
               (Sample.player "p1" A 7 true 2)) = true) as H.
  { apply Hcaptain. split; [by left|]. split; reflexivity. }
  split; [exact H|]. apply Hambassador. exact H.
Defined.

(** X11. An action that has no block (income, tax, exchange, the super
    variants, [super_coup], or any name the client does not know) still
    opens the full panel for every viewer who is not on the actor's team:
    it holds the pass button and nothing else. *)
Theorem unblockable_pass_only (view : GameView) (you_ : PublicPlayer)
    (act : PublicAction) :
  pending_action view = Some act →
  action act ∉ ["foreign_aid"; "steal"; "super_steal"; "assassinate";
                "super_assassinate"; "coup"] →
  isSameTeam view act you_ = false →
  ∃ t, blockPanel view you_ = Some (Prompt t [Build_Button onNoBlock false]).
Proof.
  intros Hact Ha Hs.
  rewrite !not_elem_of_cons in Ha.
  destruct Ha as (Hfa & Hst & Hsst & Has & Hsas & Hcoup & _).
  destruct (blockPanel_shape view you_ act Hact)
    as [(Hs' & _) | [(_ & Hb & _) | (_ & _ & t & ->)]].
  - congruence.
  - apply andb_true_iff in Hb as [Hb _]. unfold isTargetedAction in Hb.
    apply bool_decide_eq_true in Hb.
    rewrite !elem_of_cons, elem_of_nil in Hb. tauto.
  - exists t. do 2 f_equal. unfold blockButtons, canBlockForeignAid,
      canBlockSteal, canBlockAssassinate, canBlockCoup.
    by rewrite !(bool_decide_eq_false_2 (action act = _)),
      !andb_false_r by done.
Qed.

Lemma unblockable_pass_only_witness :
  ∃ t, blockPanel (Sample.blocking "p3" "tax") (Sample.player "p3" A 0 true 1)
       = Some (Prompt t [Build_Button onNoBlock false]).
Proof.
  apply (unblockable_pass_only (Sample.blocking "p3" "tax")
           (Sample.player "p3" A 0 true 1)
           (Sample.act "p2" "tax" (Some "p1")) eq_refl).
  - simpl. rewrite !not_elem_of_cons. repeat split; try discriminate.
    apply not_elem_of_nil.
  - reflexivity.
Defined.

(** ** Narration and the challenge panel *)

(** X12. The sentence of the log sidebar and the challenge panel are there
    or missing together.  For actor and blocker ids that name no inherited
    member, both are there exactly when an action is pending whose actor is
    found and, with a block pending, whose blocker is found too; a target
    that is not found takes neither away. *)
Theorem narration_and_challenge_panel (view : GameView)
    (you_ : PublicPlayer) :
  let renderable :=
    ∃ pa, pending_action view = Some pa
          ∧ ¬ missing view (actor_id pa)
          ∧ ∀ pb, pending_block view = Some pb →
                  ¬ missing view (blocker_id pb) in
  (is_Some (buildCurrentActionSummary view)
   ↔ is_Some (challengePanel view you_))
  ∧ ((∀ pa, pending_action view = Some pa →
            actor_id pa ∉ inheritedMembers) →
     (∀ pb, pending_block view = Some pb →
            blocker_id pb ∉ inheritedMembers) →
     (is_Some (buildCurrentActionSummary view) ↔ renderable)).
Proof.
  assert (∀ id, id ∉ inheritedMembers →
                (¬ missing view id ↔ is_Some (players view !! id)))
    as Hfound.
  { intros id Hid. unfold missing.
    destruct (players view !! id) as [p|].
    - split; [eauto|]. by intros _ [[=] _].
    - split; [intros H; by destruct H|]. by intros [? [=]]. }
  cbv zeta.
  unfold buildCurrentActionSummary, challengePanel, challengeResult.
  destruct (pending_action view) as [pa|], (pending_block view) as [pb|].
  - destruct (players view !! blocker_id pb) as [blocker|] eqn:Hb,
      (players view !! actor_id pa) as [actor|] eqn:Ha.
    + split.
      * split; intros _; repeat case_bool_decide; repeat case_match; eauto.
      * intros Hpa Hpb. split; [|eauto]. intros _. exists pa.
        split; [done|]. split.
        -- apply Hfound; [by apply Hpa|]. rewrite Ha. eauto.
        -- intros ? [= <-]. apply Hfound; [by apply Hpb|].
           rewrite Hb. eauto.
    + split; [split; by intros [? [=]]|]. intros Hpa Hpb.
      split; [by intros [? [=]]|].
      intros (? & [= <-] & Hx & _). exfalso.
      apply Hfound in Hx; [|by apply Hpa]. rewrite Ha in Hx.
      by destruct Hx.
    + split; [split; by intros [? [=]]|]. intros Hpa Hpb.
      split; [by intros [? [=]]|].
      intros (? & [= <-] & _ & Hx). exfalso.
      specialize (Hx pb eq_refl).
      apply Hfound in Hx; [|by apply Hpb]. rewrite Hb in Hx.
      by destruct Hx.
    + split; [split; by intros [? [=]]|]. intros Hpa Hpb.
      split; [by intros [? [=]]|].
      intros (? & [= <-] & Hx & _). exfalso.
      apply Hfound in Hx; [|by apply Hpa]. rewrite Ha in Hx.
      by destruct Hx.
  - destruct (players view !! actor_id pa) as [actor|] eqn:Ha.
    + split.
      * split; intros _; repeat case_bool_decide; repeat case_match; eauto.
      * intros Hpa Hpb. split; [|eauto]. intros _. exists pa.
        split; [done|]. split; [|by intros ? [=]].
        apply Hfound; [by apply Hpa|]. rewrite Ha. eauto.
    + split; [split; by intros [? [=]]|]. intros Hpa Hpb.
      split; [by intros [? [=]]|].
      intros (? & [= <-] & Hx & _). exfalso.
      apply Hfound in Hx; [|by apply Hpa]. rewrite Ha in Hx.
      by destruct Hx.
  - split; [split; by intros [? [=]]|]. intros _ _.
    split; [by intros [? [=]]|]. by intros (? & [=] & _).
  - split; [split; by intros [? [=]]|]. intros _ _.
    split; [by intros [? [=]]|]. by intros (? & [=] & _).
Qed.

(** ** Action selection, the other cases *)

(** X13. While it is not the viewer's turn every button of the action grid
    is disabled, whatever the viewer holds and has selected, and a click on
    the grid sends nothing and changes nothing. *)
Theorem not_your_turn (s : UIState) (page : Layout) (c : Control) :
  phase (ui_view s) = action_selection →
  current_player (ui_view s) ≠ Some (you (ui_view s)) →
  GameLayout (ui_view s) (ui_selected s) = Ok page →
  enabled c (l_panel page) = false
  ∧ ui_step s (ButtonClick c) = ([], s).
Proof.
  intros Hph Hturn Hpage.
  assert (enabled c (l_panel page) = false) as Hen.
  { apply not_true_is_false. intros Hen.
    pose proof Hpage as (_ & _ & _ & Hpanel)%GameLayout_Ok_inv.
    unfold ActionPanel in Hpanel. rewrite Hph in Hpanel.
    unfold actionSelectionPanel in Hpanel.
    assert (∃ tt tg,
              l_panel page
              = Some (ActionGrid tt tg
                        (actionButtons (ui_view s) (l_you page)
                           (canAct (ui_view s)) (ui_selected s)
                           (targetHasCoins (ui_view s) (ui_selected s)))))
      as (tt & tg & Hgrid).
    { destruct (ui_selected s) as [t|]; simpl in Hpanel;
        [case_bool_decide; simpl in Hpanel;
         [|destruct (players (ui_view s) !! t); simpl in Hpanel; [|done]]|];
        injection Hpanel as <-; eauto. }
    rewrite Hgrid in Hen.
    apply enabled_ActionGrid, actionButtons_enabled in Hen as [Hca _].
    unfold canAct in Hca. rewrite !andb_true_iff in Hca.
    destruct Hca as [[_ Hcur] _]. by apply bool_decide_eq_true in Hcur. }
  split; [done|]. unfold ui_step. by rewrite Hpage, Hen.
Qed.

Lemma not_your_turn_witness :
  ∃ page,
    GameLayout Fixture.waiting_for_p1 None = Ok page
    ∧ enabled (selectOrUseTargetOf "income") (l_panel page) = false.
Proof.
  eexists. split; [vm_compute; reflexivity|].
  refine (proj1 (not_your_turn
                   {| ui_view := Fixture.waiting_for_p1;
                      ui_selected := None |} _
                   (selectOrUseTargetOf "income") eq_refl _ eq_refl)).
  discriminate.
Defined.

(** X14. For a viewer id, and a selected target, that name no inherited
    member, rendering raises in exactly two cases: the viewer id is not
    found, or, in action selection, the selected target is a non-empty id
    that is not found. *)
Theorem GameLayout_raises_iff (view : GameView) (sel : option string) :
  you view ∉ inheritedMembers →
  (∀ t, sel = Some t → t ∉ inheritedMembers) →
  (GameLayout view sel = TypeError ↔
     missing view (you view)
     ∨ (phase view = action_selection
        ∧ ∃ t, sel = Some t ∧ t ≠ EmptyString ∧ missing view t)).
Proof.
  intros Hyou Hsel. unfold GameLayout, missing.
  destruct (players view !! you view) as [you_|]; [|split; eauto].
  unfold ActionPanel.
  destruct (phase view); simpl;
    try (split; [done | by intros [[[=] _] | [[=] _]]]).
  unfold actionSelectionPanel.
  destruct sel as [t|]; simpl.
  - case_bool_decide as Hempty; simpl.
    + split; [done|]. intros [[[=] _] | (_ & t' & [= <-] & Hne & _)]. done.
    + destruct (players view !! t) as [p|] eqn:Ht; simpl.
      * split; [done|].
        intros [[[=] _] | (_ & t' & [= <-] & _ & Hnone & _)]. congruence.
      * split; [|done]. intros _. right. split; [done|]. exists t.
        split; [done|]. split; [done|]. split; [done|]. by apply Hsel.
  - split; [done|]. by intros [[[=] _] | (_ & t' & [=] & _)].
Qed.

Lemma GameLayout_raises_iff_witness :
  GameLayout Later.p2_gone (Some "p2") = TypeError.
Proof.
  apply (GameLayout_raises_iff Later.p2_gone (Some "p2")).
  - apply (bool_decide_unpack _). by vm_compute.
  - intros t [= <-]. apply (bool_decide_unpack _). by vm_compute.
  - right. split; [reflexivity|]. exists "p2". split; [reflexivity|].
    split; [discriminate|]. split; [by vm_compute|].
    apply (bool_decide_unpack _). by vm_compute.
Defined.

(** ** Exchange and loss panels *)

Lemma toggleIndex_NoDup (mustKeep : Z) (selected : list nat) (idx : nat) :
  NoDup selected → NoDup (toggleIndex mustKeep selected idx).
Proof.
  intros Hnd. unfold toggleIndex. case_bool_decide as Hin.
  - by apply NoDup_filter.
  - destruct (mustKeep <=? Z.of_nat (length selected))%Z; [done|].
    apply NoDup_app. split; [done|]. split; [|apply NoDup_singleton].
    intros x Hx ->%list_elem_of_singleton. done.
Qed.

Lemma toggleIndex_ok (view : GameView) (you_ : PublicPlayer)
    (selected : list nat) (idx : nat) :
  idx < length (swapCards view) →
  selection_ok view you_ selected →
  selection_ok view you_ (toggleIndex (num_cards you_) selected idx).
Proof.
  intros Hidx (Hnd & Hlen & Hbound).
  split; [by apply toggleIndex_NoDup|]. unfold toggleIndex.
  case_bool_decide as Hin.
  - split.
    + pose proof (length_filter (fun x => x ≠ idx) selected). lia.
    + intros i [_ Hi]%list_elem_of_filter. by apply Hbound.
  - destruct (Z.leb_spec (num_cards you_) (Z.of_nat (length selected))).
    + done.
    + split.
      * rewrite length_app. simpl. lia.
      * intros i [Hi | ->%list_elem_of_singleton]%elem_of_app; auto.
Qed.

(** One click under given props. *)
Lemma swap_step_inv (view : GameView) (you_ : PublicPlayer)
    (c : ChoiceEvent) (selected selected' : list nat)
    (cmds : list ChoiceCommand) :
  swap_step view you_ selected c = (cmds, selected') →
  (NoDup selected → NoDup selected')
  ∧ (selection_ok view you_ selected → selection_ok view you_ selected')
  ∧ ∀ keep, sendFinishExchange keep ∈ cmds →
            c = ClickConfirm ∧ keep = selected
            ∧ current_player view = Some (player_id you_)
            ∧ Z.of_nat (length keep) = num_cards you_.
Proof.
  unfold swap_step, renderSwapChoice. intros Hstep.
  destruct (seq_opt (current_player view) (player_id you_)) eqn:Hcur;
    simpl in Hstep.
  - apply bool_decide_eq_true in Hcur. destruct c as [idx|].
    + rewrite length_imap in Hstep.
      case_bool_decide as Hidx; injection Hstep as <- <-.
      * split; [apply toggleIndex_NoDup|].
        split; [by apply toggleIndex_ok|].
        intros keep Hk. by apply elem_of_nil in Hk.
      * split; [done|]. split; [done|].
        intros keep Hk. by apply elem_of_nil in Hk.
    + case_bool_decide as Hlen; simpl in Hstep;
        injection Hstep as <- <-; (split; [done|]); (split; [done|]);
        intros keep Hk.
      * apply list_elem_of_singleton in Hk. injection Hk as ->. done.
      * by apply elem_of_nil in Hk.
  - injection Hstep as <- <-. split; [done|]. split; [done|].
    intros keep Hk. by apply elem_of_nil in Hk.
Qed.

Lemma swap_event_inv (s s' : SwapPanel) (e : PanelEvent)
    (cmds : list ChoiceCommand) :
  swap_event s e = (cmds, s') →
  (NoDup (sw_selected s) → NoDup (sw_selected s'))
  ∧ ((∃ c, e = Click c) →
     sw_view s' = sw_view s ∧ sw_you s' = sw_you s
     ∧ (selection_ok (sw_view s) (sw_you s) (sw_selected s) →
        selection_ok (sw_view s) (sw_you s) (sw_selected s')))
  ∧ ∀ keep, sendFinishExchange keep ∈ cmds →
            e = Click ClickConfirm ∧ keep = sw_selected s
            ∧ current_player (sw_view s) = Some (player_id (sw_you s))
            ∧ Z.of_nat (length keep) = num_cards (sw_you s).
Proof.
  destruct e as [c|v y]; simpl.
  - destruct (swap_step (sw_view s) (sw_you s) (sw_selected s) c)
      as [cmds1 sel1] eqn:Hstep.
    intros [= <- <-]. simpl.
    destruct (swap_step_inv _ _ _ _ _ _ Hstep) as (Hnd & Hok & Hsend).
    split; [done|]. split; [done|].
    intros keep Hk. destruct (Hsend keep Hk) as (-> & ? & ? & ?). done.
  - intros [= <- <-]. simpl. split; [done|].
    split; [by intros [c [=]]|]. intros keep Hk. by apply elem_of_nil in Hk.
Qed.

Lemma swap_run_inv (es : list PanelEvent) (s : SwapPanel) :
  NoDup (sw_selected s) →
  NoDup (sw_selected (swap_run s es).2)
  ∧ (clicksOnly es →
     selection_ok (sw_view s) (sw_you s) (sw_selected s) →
     sw_view (swap_run s es).2 = sw_view s
     ∧ sw_you (swap_run s es).2 = sw_you s
     ∧ selection_ok (sw_view s) (sw_you s) (sw_selected (swap_run s es).2)).
Proof.
  revert s. induction es as [|e es IH]; intros s Hnd; simpl; [done|].
  destruct (swap_event s e) as [cmds1 s1] eqn:Hev.
  destruct (swap_event_inv _ _ _ _ Hev) as (Hnd1 & Hclick & _).
  specialize (IH s1 (Hnd1 Hnd)).
  destruct (swap_run s1 es) as [cmds2 fin] eqn:Hrest. simpl in *.
  destruct IH as [IHnd IHok]. split; [done|]. intros Hes Hok.
  destruct Hclick as (Hv & Hy & Hok1); [apply Hes; by left|].
  destruct IHok as (Hv' & Hy' & Hok').
  - intros e' He'. apply Hes. by right.
  - rewrite Hv, Hy. by apply Hok1.
  - by rewrite Hv', Hy', Hv, Hy in *.
Qed.

(** Every command of a run is sent by one of its events, from the state the
    run has reached by then. *)
Lemma swap_run_sends (es : list PanelEvent) (s : SwapPanel)
    (keep : list nat) :
  sendFinishExchange keep ∈ (swap_run s es).1 →
  ∃ pre post,
    es = pre ++ Click ClickConfirm :: post
    ∧ sendFinishExchange keep
      ∈ (swap_event (swap_run s pre).2 (Click ClickConfirm)).1.
Proof.
  revert s. induction es as [|e es IH]; intros s; simpl.
  - intros Hk. by apply elem_of_nil in Hk.
  - destruct (swap_event s e) as [cmds1 s1] eqn:Hev.
    destruct (swap_run s1 es) as [cmds2 fin] eqn:Hrest. simpl.
    intros [Hk|Hk]%elem_of_app.
    + destruct (swap_event_inv _ _ _ _ Hev) as (_ & _ & Hsend).
      destruct (Hsend keep Hk) as (-> & _). exists [], es.
      split; [done|]. simpl. simpl in Hev. by rewrite Hev.
    + destruct (IH s1) as (pre & post & -> & Hin).
      { by rewrite Hrest. }
      exists (e :: pre), post. split; [done|]. simpl.
      rewrite Hev. revert Hin. by destruct (swap_run s1 pre).
Qed.

(** X15. The selection of the exchange panel never holds an index twice,
    whatever is clicked and whatever snapshots arrive while the panel is
    mounted.  While the snapshot stays the same it holds indices of offered
    cards only, and never more of them than the viewer holds influence
    cards: a click on one card too many is ignored. *)
Theorem swap_selection_invariant (view : GameView) (you_ : PublicPlayer)
    (es : list PanelEvent) :
  let s := (swap_run (swap_mount view you_) es).2 in
  NoDup (sw_selected s)
  ∧ (clicksOnly es →
     sw_view s = view ∧ sw_you s = you_
     ∧ (Z.of_nat (length (sw_selected s)) ≤ Z.max 0 (num_cards you_))%Z
     ∧ ∀ i, i ∈ sw_selected s → i < length (swapCards view)).
Proof.
  cbv zeta.
  destruct (swap_run_inv es (swap_mount view you_)) as [Hnd Hok];
    [apply NoDup_nil_2|].
  split; [done|]. intros Hes.
  destruct (Hok Hes) as (Hv & Hy & _ & Hlen & Hb).
  { split; [apply NoDup_nil_2|]. split; [simpl; lia|].
    intros i Hi. by apply elem_of_nil in Hi. }
  done.
Qed.

(** X16. An exchange is confirmed only with the confirm button, by a viewer
    who is the current player of the snapshot on the page at that moment,
    and the kept indices that are sent are pairwise different and exactly
    as many as that viewer holds influence cards.  When the snapshot has
    stayed the same since the panel was mounted they are indices of offered
    cards. *)
Theorem swap_confirm_sends (view : GameView) (you_ : PublicPlayer)
    (es : list PanelEvent) (keep : list nat) :
  sendFinishExchange keep ∈ (swap_run (swap_mount view you_) es).1 →
  ∃ pre post,
    es = pre ++ Click ClickConfirm :: post
    ∧ let s := (swap_run (swap_mount view you_) pre).2 in
      keep = sw_selected s
      ∧ current_player (sw_view s) = Some (player_id (sw_you s))
      ∧ Z.of_nat (length keep) = num_cards (sw_you s)
      ∧ NoDup keep
      ∧ (clicksOnly pre → ∀ i, i ∈ keep → i < length (swapCards view)).
Proof.
  intros Hk.
  destruct (swap_run_sends _ _ _ Hk) as (pre & post & -> & Hin).
  exists pre, post. split; [done|]. cbv zeta.
  destruct (swap_event (swap_run (swap_mount view you_) pre).2
              (Click ClickConfirm)) as [cmds s'] eqn:Hev.
  destruct (swap_event_inv _ _ _ _ Hev) as (_ & _ & Hsend).
  destruct (Hsend keep Hin) as (_ & -> & Hcur & Hlen).
  destruct (swap_run_inv pre (swap_mount view you_)) as [Hnd Hok];
    [apply NoDup_nil_2|].
  repeat split; try done.
  intros Hpre. destruct (Hok Hpre) as (_ & _ & _ & _ & Hb); [|done].
  split; [apply NoDup_nil_2|]. split; [simpl; lia|].
  intros i Hi. by apply elem_of_nil in Hi.
Qed.

Lemma swap_confirm_sends_witness :
  ∃ pre post,
    [Click (ClickCard 0); Click (ClickCard 2); Click (ClickCard 1);
     Click ClickConfirm] = pre ++ Click ClickConfirm :: post
    ∧ [0; 2]
      = sw_selected
          (swap_run (swap_mount Fixture.exchange_of_p1
                       (Sample.player "p1" A 7 true 2)) pre).2.
Proof.
  destruct (swap_confirm_sends Fixture.exchange_of_p1
              (Sample.player "p1" A 7 true 2)
              [Click (ClickCard 0); Click (ClickCard 2);
               Click (ClickCard 1); Click ClickConfirm] [0; 2])
    as (pre & post & Hes & Hkeep & _).
  - vm_compute. apply list_elem_of_here.
  - exists pre, post. split; [exact Hes | exact Hkeep].
Defined.

(** A selection made under one snapshot is sent as it is under the next:
    here index 2, with two cards offered. *)
Example swap_selection_outlives_snapshot :
  (swap_run (swap_mount Fixture.exchange_of_p1
               (Sample.player "p1" A 7 true 2))
     [Click (ClickCard 0); Click (ClickCard 2);
      Rerender Later.exchange_of_two (Sample.player "p1" A 7 true 2);
      Click ClickConfirm]).1
  = [sendFinishExchange [0; 2]]
  ∧ length (swapCards Later.exchange_of_two) = 2.
Proof. split; by vm_compute. Qed.

(** X17. Toggling the same card twice gives back the same set of kept
    cards, and the very same list when the card was not selected; a card
    that was selected moves to the end of the list that will be sent. *)
Theorem toggleIndex_twice (mustKeep : Z) (prev : list nat) (idx : nat) :
  NoDup prev →
  (Z.of_nat (length prev) ≤ mustKeep)%Z →
  toggleIndex mustKeep (toggleIndex mustKeep prev idx) idx ≡ₚ prev
  ∧ (idx ∉ prev →
     toggleIndex mustKeep (toggleIndex mustKeep prev idx) idx = prev)
  ∧ (idx ∈ prev →
     toggleIndex mustKeep (toggleIndex mustKeep prev idx) idx
     = filter (fun x => x ≠ idx) prev ++ [idx]).
Proof.
  intros Hnd Hlen.
  assert (∀ l : list nat, idx ∉ l → filter (fun x => x ≠ idx) l = l)
    as Hkeep.
  { intros l Hl. induction l as [|y l IH]; [done|].
    apply not_elem_of_cons in Hl as [Hne Hl].
    rewrite filter_cons_True by done. by rewrite IH. }
  destruct (decide (idx ∈ prev)) as [Hin|Hin].
  - assert (toggleIndex mustKeep prev idx = filter (fun x => x ≠ idx) prev)
      as ->.
    { unfold toggleIndex. by rewrite (bool_decide_eq_true_2 _ Hin). }
    assert (idx ∉ filter (fun x => x ≠ idx) prev) as Hout.
    { by intros [? _]%list_elem_of_filter. }
    assert (length (filter (fun x => x ≠ idx) prev) < length prev) as Hless.
    { clear -Hin. induction prev as [|y l IH];
        [by apply elem_of_nil in Hin|].
      destruct (decide (y = idx)) as [->|Hne].
      - rewrite filter_cons_False by (intros Hx; by apply Hx). simpl.
        pose proof (length_filter (fun x => x ≠ idx) l). lia.
      - rewrite filter_cons_True by done. simpl.
        apply elem_of_cons in Hin as [->|Hin]; [done|].
        specialize (IH Hin). lia. }
    assert (toggleIndex mustKeep (filter (fun x => x ≠ idx) prev) idx
            = filter (fun x => x ≠ idx) prev ++ [idx]) as ->.
    { unfold toggleIndex. rewrite (bool_decide_eq_false_2 _ Hout).
      destruct (Z.leb_spec mustKeep
                  (Z.of_nat (length (filter (fun x => x ≠ idx) prev))));
        [lia|done]. }
    split; [|split; [intros Hn; by destruct Hn | done]].
    rewrite <- Permutation_cons_append.
    clear -Hnd Hin Hkeep. induction prev as [|y l IH];
      [by apply elem_of_nil in Hin|].
    apply NoDup_cons in Hnd as [Hy Hnd].
    destruct (decide (y = idx)) as [->|Hne].
    + rewrite filter_cons_False by (intros Hx; by apply Hx).
      by rewrite Hkeep.
    + rewrite filter_cons_True by done.
      apply elem_of_cons in Hin as [->|Hin]; [done|].
      rewrite Permutation_swap. by rewrite (IH Hnd Hin).
  - destruct (Z.leb_spec mustKeep (Z.of_nat (length prev))) as [Hfull|Hroom].
    + assert (toggleIndex mustKeep prev idx = prev) as Hnoop.
      { unfold toggleIndex. rewrite (bool_decide_eq_false_2 _ Hin).
        destruct (Z.leb_spec mustKeep (Z.of_nat (length prev))); [done|lia]. }
      rewrite !Hnoop. split; [done|]. split; [done|]. intros Hx. done.
    + assert (toggleIndex mustKeep prev idx = prev ++ [idx]) as ->.
      { unfold toggleIndex. rewrite (bool_decide_eq_false_2 _ Hin).
        destruct (Z.leb_spec mustKeep (Z.of_nat (length prev))); [lia|done]. }
      assert (toggleIndex mustKeep (prev ++ [idx]) idx = prev) as ->.
      { unfold toggleIndex.
        rewrite bool_decide_eq_true_2
          by (apply elem_of_app; right; apply list_elem_of_here).
        rewrite filter_app, Hkeep by done.
        rewrite filter_cons_False by (intros Hx; by apply Hx).
        by rewrite filter_nil, app_nil_r. }
      split; [done|]. split; [done|]. intros Hx. done.
Qed.

Lemma toggleIndex_twice_witness :
  toggleIndex 2 (toggleIndex 2 [0; 1] 0) 0 = [1; 0].
Proof.
  destruct (toggleIndex_twice 2 [0; 1] 0) as (_ & _ & H).
  - apply (bool_decide_unpack _). by vm_compute.
  - simpl. lia.
  - apply H, list_elem_of_here.
Defined.

Lemma loss_step_inv (view : GameView) (you_ : PublicPlayer)
    (c : ChoiceEvent) (selected selected' : option nat)
    (cmds : list ChoiceCommand) :
  loss_step view you_ selected c = (cmds, selected') →
  ((∀ i, selected = Some i → i < length (lossCards view you_)) →
   ∀ i, selected' = Some i → i < length (lossCards view you_))
  ∧ ∀ i, sendChooseLoss i ∈ cmds →
         c = ClickConfirm ∧ selected = Some i
         ∧ loss_choice_player_id view = Some (player_id you_)
         ∧ is_Some (players view !! player_id you_).
Proof.
  unfold loss_step, renderLossChoice. intros Hstep.
  destruct (loss_choice_player_id view) as [lid|] eqn:Hlid;
    simpl in Hstep;
    [|injection Hstep as <- <-; split; [done|];
      intros i Hi; by apply elem_of_nil in Hi].
  case_bool_decide as Hempty; simpl in Hstep;
    [injection Hstep as <- <-; split; [done|];
     intros i Hi; by apply elem_of_nil in Hi|].
  destruct (players view !! lid) as [loser|] eqn:Hloser;
    [|injection Hstep as <- <-; split; [done|];
      intros i Hi; by apply elem_of_nil in Hi].
  unfold seq_opt in Hstep. case_bool_decide as Hyou; simpl in Hstep;
    [|injection Hstep as <- <-; split; [done|];
      intros i Hi; by apply elem_of_nil in Hi].
  injection Hyou as ->.
  destruct c as [idx|].
  - rewrite length_imap in Hstep.
    case_bool_decide as Hidx; injection Hstep as <- <-;
      (split; [|intros i Hi; by apply elem_of_nil in Hi]);
      [by intros _ i [= <-] | done].
  - destruct selected as [idx|];
      [|injection Hstep as <- <-; split; [done|];
        intros i Hi; by apply elem_of_nil in Hi].
    rewrite bool_decide_eq_false_2 in Hstep by done.
    injection Hstep as <- <-. split; [done|].
    intros i Hi%list_elem_of_singleton. injection Hi as ->. eauto.
Qed.

Lemma loss_event_inv (s s' : LossPanel) (e : PanelEvent)
    (cmds : list ChoiceCommand) :
  loss_event s e = (cmds, s') →
  ((∃ c, e = Click c) →
   lo_view s' = lo_view s ∧ lo_you s' = lo_you s
   ∧ ((∀ i, lo_selected s = Some i →
            i < length (lossCards (lo_view s) (lo_you s))) →
      ∀ i, lo_selected s' = Some i →
           i < length (lossCards (lo_view s) (lo_you s))))
  ∧ ∀ i, sendChooseLoss i ∈ cmds →
         e = Click ClickConfirm ∧ lo_selected s = Some i
         ∧ loss_choice_player_id (lo_view s) = Some (player_id (lo_you s))
         ∧ is_Some (players (lo_view s) !! player_id (lo_you s)).
Proof.
  destruct e as [c|v y]; simpl.
  - destruct (loss_step (lo_view s) (lo_you s) (lo_selected s) c)
      as [cmds1 sel1] eqn:Hstep.
    intros [= <- <-]. simpl.
    destruct (loss_step_inv _ _ _ _ _ _ Hstep) as (Hok & Hsend).
    split; [done|].
    intros i Hi. destruct (Hsend i Hi) as (-> & ? & ? & ?). done.
  - intros [= <- <-]. simpl.
    split; [by intros [c [=]]|]. intros i Hi. by apply elem_of_nil in Hi.
Qed.

Lemma loss_run_inv (es : list PanelEvent) (s : LossPanel) :
  clicksOnly es →
  (∀ i, lo_selected s = Some i →
        i < length (lossCards (lo_view s) (lo_you s))) →
  lo_view (loss_run s es).2 = lo_view s
  ∧ lo_you (loss_run s es).2 = lo_you s
  ∧ ∀ i, lo_selected (loss_run s es).2 = Some i →
         i < length (lossCards (lo_view s) (lo_you s)).
Proof.
  revert s. induction es as [|e es IH]; intros s Hes Hok; simpl; [done|].
  destruct (loss_event s e) as [cmds1 s1] eqn:Hev.
  destruct (loss_event_inv _ _ _ _ Hev) as (Hclick & _).
  destruct Hclick as (Hv & Hy & Hok1); [apply Hes; by left|].
  specialize (IH s1).
  destruct (loss_run s1 es) as [cmds2 fin] eqn:Hrest. simpl in *.
  destruct IH as (Hv' & Hy' & Hok').
  - intros e' He'. apply Hes. by right.
  - rewrite Hv, Hy. by apply Hok1.
  - by rewrite Hv', Hy', Hv, Hy in *.
Qed.

Lemma loss_run_sends (es : list PanelEvent) (s : LossPanel) (i : nat) :
  sendChooseLoss i ∈ (loss_run s es).1 →
  ∃ pre post,
    es = pre ++ Click ClickConfirm :: post
    ∧ sendChooseLoss i
      ∈ (loss_event (loss_run s pre).2 (Click ClickConfirm)).1.
Proof.
  revert s. induction es as [|e es IH]; intros s; simpl.
  - intros Hk. by apply elem_of_nil in Hk.
  - destruct (loss_event s e) as [cmds1 s1] eqn:Hev.
    destruct (loss_run s1 es) as [cmds2 fin] eqn:Hrest. simpl.
    intros [Hk|Hk]%elem_of_app.
    + destruct (loss_event_inv _ _ _ _ Hev) as (_ & Hsend).
      destruct (Hsend i Hk) as (-> & _). exists [], es.
      split; [done|]. simpl. simpl in Hev. by rewrite Hev.
    + destruct (IH s1) as (pre & post & -> & Hin).
      { by rewrite Hrest. }
      exists (e :: pre), post. split; [done|]. simpl.
      rewrite Hev. revert Hin. by destruct (loss_run s1 pre).
Qed.

(** X18. A loss is confirmed only with the confirm button, by a viewer whom
    the snapshot on the page at that moment names in
    [loss_choice_player_id] and whose id is found, and what is sent is the
    panel's selection.  When the snapshot has stayed the same since the
    panel was mounted, the index sent is that of an offered card: with no
    card offered nothing is sent. *)
Theorem loss_choice_sends (view : GameView) (you_ : PublicPlayer)
    (es : list PanelEvent) (i : nat) :
  sendChooseLoss i ∈ (loss_run (loss_mount view you_) es).1 →
  ∃ pre post,
    es = pre ++ Click ClickConfirm :: post
    ∧ let s := (loss_run (loss_mount view you_) pre).2 in
      lo_selected s = Some i
      ∧ loss_choice_player_id (lo_view s) = Some (player_id (lo_you s))
      ∧ ¬ missing (lo_view s) (player_id (lo_you s))
      ∧ (clicksOnly pre →
         i < length (lossCards view you_) ∧ lossCards view you_ ≠ []).
Proof.
  intros Hk.
  destruct (loss_run_sends _ _ _ Hk) as (pre & post & -> & Hin).
  exists pre, post. split; [done|]. cbv zeta.
  destruct (loss_event (loss_run (loss_mount view you_) pre).2
              (Click ClickConfirm)) as [cmds s'] eqn:Hev.
  destruct (loss_event_inv _ _ _ _ Hev) as (_ & Hsend).
  destruct (Hsend i Hin) as (_ & Hsel & Hlid & [p Hp]).
  split; [done|]. split; [done|]. split.
  { intros [Hnone _]. congruence. }
  intros Hpre.
  destruct (loss_run_inv pre (loss_mount view you_) Hpre) as (_ & _ & Hb);
    [done|].
  specialize (Hb i Hsel). simpl in Hb. split; [done|].
  intros Hnil. rewrite Hnil in Hb. simpl in Hb. lia.
Qed.

Lemma loss_choice_sends_witness :
  ∃ pre post,
    [Click ClickConfirm; Click (ClickCard 0); Click (ClickCard 1);
     Click (ClickCard 5); Click ClickConfirm]
    = pre ++ Click ClickConfirm :: post
    ∧ lo_selected
        (loss_run (loss_mount Fixture.loss_of_p1
                     (Sample.player "p1" A 7 true 2)) pre).2
      = Some 1.
Proof.
  destruct (loss_choice_sends Fixture.loss_of_p1
              (Sample.player "p1" A 7 true 2)
              [Click ClickConfirm; Click (ClickCard 0); Click (ClickCard 1);
               Click (ClickCard 5); Click ClickConfirm] 1)
    as (pre & post & Hes & Hsel & _).
  - vm_compute. apply list_elem_of_here.
  - exists pre, post. split; [exact Hes | exact Hsel].
Defined.

(** A card chosen under one snapshot is sent as it is under the next: here
    index 1, with one card offered. *)
Example loss_selection_outlives_snapshot :
  (loss_run (loss_mount Fixture.loss_of_p1 (Sample.player "p1" A 7 true 2))
     [Click (ClickCard 1);
      Rerender Later.loss_of_last_card (Sample.player "p1" A 7 true 2);
      Click ClickConfirm]).1
  = [sendChooseLoss 1]
  ∧ length (lossCards Later.loss_of_last_card
              (Sample.player "p1" A 7 true 2)) = 1.
Proof. split; by vm_compute. Qed.

Lemma imap_roles (g : nat → string → CardButton) (l : list string) :
  (∀ i r, card_role (g i r) = r) → card_role <$> imap g l = l.
Proof.
  revert g. induction l as [|r l IH]; intros g Hg; [done|].
  simpl. rewrite Hg. f_equal. apply IH. intros i r'. apply Hg.
Qed.

Lemma imap_indices (g : nat → string → CardButton) (l : list string)
    (k : nat) :
  (∀ i r, card_index (g i r) = k + i) →
  card_index <$> imap g l = seq k (length l).
Proof.
  revert g k. induction l as [|r l IH]; intros g k Hg; [done|].
  simpl. rewrite Hg, Nat.add_0_r. f_equal. apply IH.
  intros i r'. simpl. rewrite Hg. lia.
Qed.

(** X19. Who sees what in the loss panel, for a [loss_choice_player_id]
    that names no inherited member.  Nothing is rendered exactly when the
    id is null, empty or not found.  The notice is rendered exactly when
    the id is found and is not the viewer's, and it carries the name of the
    player found.  The choice is rendered exactly when the id is found and
    is the viewer's: one button per offered card, in order, and a confirm
    button that is disabled exactly while no card is chosen. *)
Theorem loss_panel_cases (view : GameView) (you_ : PublicPlayer)
    (selected : option nat) :
  (∀ lid, loss_choice_player_id view = Some lid →
          lid ∉ inheritedMembers) →
  let rendered := renderLossChoice view you_ selected in
  let found id := id ≠ EmptyString ∧ is_Some (players view !! id) in
  (rendered = None ↔ missingTarget view (loss_choice_player_id view))
  ∧ ((∃ nm, rendered = Some (LossWait nm)) ↔
       ∃ lid, loss_choice_player_id view = Some lid
              ∧ lid ≠ player_id you_ ∧ found lid)
  ∧ ((∃ bs dis, rendered = Some (LossChoose bs dis)) ↔
       loss_choice_player_id view = Some (player_id you_)
       ∧ found (player_id you_))
  ∧ (∀ nm, rendered = Some (LossWait nm) →
           ∃ lid loser, loss_choice_player_id view = Some lid
                        ∧ players view !! lid = Some loser
                        ∧ nm = name loser)
  ∧ (∀ bs dis, rendered = Some (LossChoose bs dis) →
               card_role <$> bs = lossCards view you_
               ∧ card_index <$> bs = seq 0 (length (lossCards view you_))
               ∧ (∀ b, b ∈ bs →
                       (card_selected b = true
                        ↔ selected = Some (card_index b)))
               ∧ (dis = true ↔ selected = None)).
Proof.
  intros Hplain. cbv zeta. unfold renderLossChoice, missingTarget, missing.
  destruct (loss_choice_player_id view) as [lid|]; simpl.
  2:{ split; [done|]. split; [split; [by intros [? [=]]|]|].
      { by intros (? & [=] & _). }
      split; [split; [by intros (? & ? & [=])|by intros [[=] _]]|].
      split; [by intros ? [=]|by intros ? ? [=]]. }
  specialize (Hplain lid eq_refl).
  case_bool_decide as Hempty; simpl.
  { subst lid. split; [split; [by left|done]|].
    split; [split; [by intros [? [=]]|]|].
    { by intros (? & [= <-] & _ & ? & _). }
    split; [split; [by intros (? & ? & [=])|]|].
    { intros [[= Hid] [Hne _]]. congruence. }
    split; [by intros ? [=]|by intros ? ? [=]]. }
  destruct (players view !! lid) as [loser|] eqn:Hloser.
  2:{ split; [split; [by right|done]|].
      split; [split; [by intros [? [=]]|]|].
      { intros (? & [= <-] & _ & _ & [? Hx]). congruence. }
      split; [split; [by intros (? & ? & [=])|]|].
      { intros [[= <-] [_ [? Hx]]]. congruence. }
      split; [by intros ? [=]|by intros ? ? [=]]. }
  unfold seq_opt. case_bool_decide as Hyou; simpl.
  - injection Hyou as ->.
    split; [split; [done|]; intros [? | [[=] _]]; done|].
    split; [split; [by intros [? [=]]|]|].
    { by intros (? & [= <-] & ? & _). }
    split; [split; [intros _; split; [done|]; split; [done|]; eauto|]|].
    { intros _. eauto. }
    split; [by intros ? [=]|].
    intros bs dis [= <- <-].
    split; [by apply imap_roles|].
    split; [by apply (imap_indices _ _ 0)|].
    split; [|apply bool_decide_eq_true].
    intros b Hb. apply list_elem_of_lookup in Hb as [k Hk].
    rewrite list_lookup_imap in Hk.
    destruct (lossCards view you_ !! k) as [role|]; [|done].
    injection Hk as <-. simpl. apply bool_decide_eq_true.
  - split; [split; [done|]; intros [? | [[=] _]]; done|].
    split.
    { split; [|eauto]. intros _. exists lid. split; [done|].
      split; [congruence|]. split; [done|]. eauto. }
    split.
    { split; [by intros (? & ? & [=])|]. intros [[= ->] _]. done. }
    split; [|by intros ? ? [=]].
    intros nm [= <-]. eauto.
Qed.

Lemma loss_panel_cases_witness :
  ∃ bs dis,
    renderLossChoice Fixture.loss_of_p1 (Sample.player "p1" A 7 true 2) None
    = Some (LossChoose bs dis).
Proof.
  destruct (loss_panel_cases Fixture.loss_of_p1
              (Sample.player "p1" A 7 true 2) None)
    as (_ & _ & Hchoose & _).
  - intros lid [= <-]. apply (bool_decide_unpack _). by vm_compute.
  - apply Hchoose. split; [reflexivity|]. split; [discriminate|].
    eexists. vm_compute. reflexivity.
Defined.

(** ** The server interface *)

Lemma or_string_nonempty (a b : string) :
  b ≠ EmptyString → or_string a b ≠ EmptyString.
Proof. unfold or_string. by case_bool_decide. Qed.

Lemma errorBanner_Error (body status : string) :
  errorBanner (Error (or_string body status))
  = or_string body (or_string status "Error").
Proof.
  unfold errorBanner, errorToString, Error, or_string. simpl.
  repeat case_bool_decide; congruence.
Qed.

(** X20. A response that is not [ok] rejects the call, and the banner made
    from that rejection is the response body, or the status text when the
    body is empty, or the word "Error" when both are empty: it is never
    empty. *)
Theorem http_rejection_banner {X : Type} (res : Response X)
    (body : string) :
  ok res = false →
  text res = Fulfilled body →
  ∃ e, postJSON (Responded res) = Rejected e
       ∧ errorBanner e = or_string body (or_string (statusText res) "Error")
       ∧ errorBanner e ≠ EmptyString.
Proof.
  intros Hok Hbody. unfold postJSON. rewrite Hok, Hbody. simpl.
  eexists. split; [done|]. rewrite errorBanner_Error.
  split; [done|]. by do 2 apply or_string_nonempty.
Qed.

Lemma http_rejection_banner_witness :
  ∃ e, postJSON (Fixture.rejection EmptyString "Bad Request") = Rejected e
       ∧ errorBanner e = "Bad Request".
Proof.
  destruct (http_rejection_banner
              {| ok := false; text := Fulfilled EmptyString;
                 statusText := "Bad Request";
                 json := Rejected (Error "unused") : Outcome GameView |}
              EmptyString eq_refl eq_refl) as (e & He & Hb & _).
  exists e. split; [exact He|exact Hb].
Defined.

Lemma all_slashes_app (s t : string) :
  all_slashes (s +:+ t) = all_slashes s && all_slashes t.
Proof.
  induction s as [|c s IH]; simpl; [done|]. by rewrite IH, andb_assoc.
Qed.

Lemma strip_all_slashes (s : string) :
  all_slashes s = true ↔ stripTrailingSlashes s = EmptyString.
Proof.
  destruct s as [|c s]; [done|]. cbn [stripTrailingSlashes].
  by destruct (all_slashes (String c s)).
Qed.

Lemma strip_decompose (s : string) :
  ∃ tail, all_slashes tail = true ∧ s = stripTrailingSlashes s +:+ tail.
Proof.
  induction s as [|c s (tail & Htail & IH)]; [by exists EmptyString|].
  cbn [stripTrailingSlashes].
  destruct (all_slashes (String c s)) eqn:Hall.
  - by exists (String c s).
  - exists tail. split; [done|]. by rewrite IH at 1.
Qed.

Lemma strip_no_trailing_slash (s t : string) :
  stripTrailingSlashes s ≠ t +:+ "/".
Proof.
  revert t. induction s as [|c s IH]; intros t.
  - by destruct t.
  - cbn [stripTrailingSlashes].
    destruct (all_slashes (String c s)) eqn:Hall; [by destruct t|].
    destruct t as [|d t]; simpl.
    + intros [= -> Hs]. apply strip_all_slashes in Hs.
      simpl in Hall. by rewrite Hs in Hall.
    + intros [= _ Hs]. by apply (IH t).
Qed.

Lemma strip_app_slashes (b t : string) :
  all_slashes t = true →
  stripTrailingSlashes (b +:+ t) = stripTrailingSlashes b.
Proof.
  intros Ht. induction b as [|c b IH]; simpl.
  - by apply strip_all_slashes.
  - change (all_slashes (String c (b +:+ t)))
      with (all_slashes (String c b +:+ t)).
    rewrite all_slashes_app, Ht, andb_true_r.
    change (bool_decide (String c EmptyString = "/") && all_slashes b)
      with (all_slashes (String c b)).
    by rewrite IH.
Qed.

(** X21. The base address of the API is the configured address without its
    trailing slashes, followed by [/api]; an address that is missing or
    empty gives [http://localhost:8000/api]; adding slashes at the end of a
    non-empty address changes nothing. *)
Theorem api_base (env : option string) :
  (∃ base tail,
     API_BASE env = base +:+ "/api"
     ∧ RAW_BASE env = base +:+ tail ∧ all_slashes tail = true
     ∧ ∀ t, base ≠ t +:+ "/")
  ∧ API_BASE None = "http://localhost:8000/api"
  ∧ API_BASE (Some EmptyString) = "http://localhost:8000/api"
  ∧ ∀ b tail, b ≠ EmptyString → all_slashes tail = true →
              API_BASE (Some (b +:+ tail)) = API_BASE (Some b).
Proof.
  split; [|split; [done|split; [done|]]].
  - destruct (strip_decompose (RAW_BASE env)) as (tail & Htail & Hraw).
    exists (stripTrailingSlashes (RAW_BASE env)), tail.
    repeat split; try done. intros t. apply strip_no_trailing_slash.
  - intros b tail Hb Htail. unfold API_BASE, RAW_BASE, or_string. simpl.
    rewrite (bool_decide_eq_false_2 _ Hb).
    rewrite bool_decide_eq_false_2 by (by destruct b).
    by rewrite strip_app_slashes.
Qed.

(** ** [App] *)

Lemma shownBanner_setError (s : AppState) (msg : string) :
  msg ≠ EmptyString → shownBanner (setError (Some msg) s) = Some msg.
Proof.
  intros Hmsg. unfold shownBanner. simpl.
  by rewrite (bool_decide_eq_false_2 _ Hmsg).
Qed.

(** X22. A command sent from the table (action, block, challenge, pass,
    exchange, loss) goes out once, with the session token.  When the server
    rejects it the player stays at the table with the view unchanged and
    reads the server's text in the banner; when it succeeds the returned
    view replaces the held one and the banner is gone.  Without a token
    nothing is sent and nothing changes. *)
Theorem command_outcome (request : string → ApiCall) (s : AppState)
    (token : string) (banner : option string) (v : GameView) :
  playerToken s = Some token →
  App s = Table banner v →
  (∀ (res : Response GameView) (body : string),
     ok res = false → text res = Fulfilled body →
     commandHandler request s (postJSON (Responded res))
     = ([request token],
        setError
          (Some (or_string body (or_string (statusText res) "Error"))) s)
     ∧ App (commandHandler request s (postJSON (Responded res))).2
       = Table (Some (or_string body (or_string (statusText res) "Error")))
           v)
  ∧ (∀ v', commandHandler request s (Fulfilled v')
           = ([request token], setView v' (setError None s))
           ∧ App (commandHandler request s (Fulfilled v')).2 = Table None v')
  ∧ (∀ s0 answer, truthy (playerToken s0) = false →
                  commandHandler request s0 answer = ([], s0)).
Proof.
  intros Htok Hpage.
  assert (truthy (playerToken s) = true ∧ app_view s = Some v)
    as [Htruthy Hview].
  { unfold App in Hpage. destruct (app_view s); [|done].
    destruct (truthy (playerToken s)); [|done].
    simpl in Hpage. by injection Hpage as _ <-. }
  split; [|split].
  - intros res body Hok Hbody.
    unfold postJSON. rewrite Hok, Hbody. cbn [negb].
    unfold commandHandler. rewrite Htruthy, Htok. cbn [negb].
    rewrite errorBanner_Error. split; [reflexivity|].
    unfold App. cbn [snd app_view playerToken setError].
    rewrite Hview, Htruthy. cbn [negb].
    f_equal. apply shownBanner_setError.
    by do 2 apply or_string_nonempty.
  - intros v'. unfold commandHandler. rewrite Htruthy, Htok. cbn [negb].
    split; [reflexivity|].
    unfold App. cbn [snd app_view playerToken setError setView].
    by rewrite Htruthy.
  - intros s0 answer Hfalsy. unfold commandHandler.
    destruct (playerToken s0); [|done]. by rewrite Hfalsy.
Qed.

Lemma command_outcome_witness :
  App (handleAction "income" None (Fixture.at_table None)
         (postJSON (Fixture.rejection "Not your turn" "Bad Request"))).2
  = Table (Some "Not your turn") (Sample.turn_of_p1 normal_team).
Proof.
  destruct (command_outcome (fun token => apiAction token "income" None)
              (Fixture.at_table None) "tok" None
              (Sample.turn_of_p1 normal_team) eq_refl eq_refl)
    as (Hrejected & _).
  exact (proj2 (Hrejected
                  {| ok := false; text := Fulfilled "Not your turn";
                     statusText := "Bad Request";
                     json := Rejected (Error "unused") |}
                  "Not your turn" eq_refl eq_refl)).
Defined.

(** X23. Starting the game does not clear an earlier error: after a
    successful start the new view is shown under the old banner, where any
    successful command would have removed it.  When the start itself is
    rejected no state is fetched and the view stays. *)
Theorem start_game_keeps_banner (s : AppState) (token : string)
    (started : bool) (v : GameView) :
  playerToken s = Some token →
  token ≠ EmptyString →
  handleStartGame s (Fulfilled started) (Fulfilled v)
  = ([startGame token; fetchState token], setView v s)
  ∧ App (handleStartGame s (Fulfilled started) (Fulfilled v)).2
    = Table (shownBanner s) v
  ∧ App (commandHandler apiChallenge s (Fulfilled v)).2 = Table None v
  ∧ ∀ e fetched,
      (handleStartGame s (Rejected e) fetched).1 = [startGame token]
      ∧ app_view (handleStartGame s (Rejected e) fetched).2 = app_view s.
Proof.
  intros Htok Hne.
  assert (truthy (playerToken s) = true) as Htruthy.
  { rewrite Htok. simpl. by rewrite (bool_decide_eq_false_2 _ Hne). }
  unfold handleStartGame, commandHandler, App.
  rewrite Htruthy, Htok. cbn [negb snd fst app_view playerToken setView
                              setError].
  by rewrite Htruthy.
Qed.

Lemma start_game_keeps_banner_witness :
  App (handleStartGame (Fixture.at_table (Some "Need 4 or 6 players"))
         (Fulfilled true) (Fulfilled Sample.lobby_of_three)).2
  = Table (Some "Need 4 or 6 players") Sample.lobby_of_three.
Proof.
  refine (proj1 (proj2 (start_game_keeps_banner
                          (Fixture.at_table (Some "Need 4 or 6 players"))
                          "tok" true Sample.lobby_of_three eq_refl _))).
  discriminate.
Defined.



(** X25. Joining with an empty game id sends nothing and changes nothing;
    with an id, the join request carries that id and a name that is never
    empty, and after a successful join the recorded game id is the one that
    was typed. *)
Theorem join_game_flow (s : AppState) (joined : Outcome string)
    (fetched : Outcome GameView) :
  (joinGameId s = EmptyString →
   handleJoinGame s joined fetched = ([], s))
  ∧ (joinGameId s ≠ EmptyString →
     (∃ nm rest,
        (handleJoinGame s joined fetched).1
        = joinGame (joinGameId s) nm (form_team s) :: rest
        ∧ nm ≠ EmptyString)
     ∧ ∀ token, joined = Fulfilled token →
                gameId (handleJoinGame s joined fetched).2
                = Some (joinGameId s)
                ∧ playerToken (handleJoinGame s joined fetched).2
                  = Some token).
Proof.
  unfold handleJoinGame. split.
  - intros ->. done.
  - intros Hid. rewrite (bool_decide_eq_false_2 _ Hid).
    assert (or_string (form_name s) "Player" ≠ EmptyString) as Hname.
    { by apply or_string_nonempty. }
    split.
    + destruct joined, fetched; simpl; eauto.
    + intros token ->. by destruct fetched.
Qed.

(** ** [Landing] *)

(** X26. The landing form never hands on a blank name or a blank game id,
    and hands on nothing while a request is loading: what [onCreate] and
    [onJoin] receive is trimmed and not empty. *)
Theorem landing_submits_nonblank (trim : string → string) (loading : bool)
    (st : LandingState) :
  (∀ m nm t, clickCreate trim loading st = Some (m, nm, t) →
             loading = false ∧ nm = trim (landing_name st)
             ∧ nm ≠ EmptyString)
  ∧ (∀ gid nm t, clickJoin trim loading st = Some (gid, nm, t) →
                 loading = false
                 ∧ nm = trim (landing_name st) ∧ nm ≠ EmptyString
                 ∧ gid = trim (landing_joinGameId st)
                 ∧ gid ≠ EmptyString).
Proof.
  unfold clickCreate, clickJoin, createDisabled, joinDisabled.
  split.
  - intros m nm t. destruct loading; [done|]. simpl.
    case_bool_decide; [done|]. by intros [= _ <- _].
  - intros gid nm t. destruct loading; [done|]. simpl.
    repeat (case_bool_decide; [done|]). simpl. by intros [= <- <- _].
Qed.

(** ** Poll session, the held view and the end of a session *)

Lemma poll_held_cancelled (es : list PollEvent) (s s' : PollState) :
  cancel s = true → poll_run s es = Some s' → held s' = held s.
Proof.
  intros Hc Hrun. by destruct (cancelled_run es s s' Hc Hrun) as (_ & ? & _).
Qed.

Lemma poll_held_run (es : list PollEvent) (s s' : PollState) :
  cancel s = false →
  poll_run s es = Some s' →
  held s' = last_resolved (held s) (before_cleanup es)
  ∧ (cancel s' = false → before_cleanup es = es).
Proof.
  revert s. induction es as [|e es IH]; intros s Hc Hrun; simpl in Hrun.
  - by injection Hrun as <-.
  - destruct (poll_step s e) as [s1|] eqn:Hstep; [|done].
    destruct e as [v| | |]; simpl in Hstep.
    + case_bool_decide; [|done]. injection Hstep as Hs1.
      assert (cancel s1 = false) as Hc1 by (by rewrite <- Hs1).
      destruct (IH s1 Hc1 Hrun) as [Hheld Hsame].
      rewrite Hheld, <- Hs1. simpl. rewrite Hc. simpl.
      split; [done|]. intros Hc'. by rewrite Hsame.
    + case_bool_decide; [|done]. injection Hstep as Hs1.
      assert (cancel s1 = false) as Hc1 by (by rewrite <- Hs1).
      destruct (IH s1 Hc1 Hrun) as [Hheld Hsame].
      rewrite Hheld, <- Hs1. simpl.
      split; [done|]. intros Hc'. by rewrite Hsame.
    + destruct (timers s); [done|]. injection Hstep as Hs1.
      assert (cancel s1 = false) as Hc1 by (by rewrite <- Hs1).
      destruct (IH s1 Hc1 Hrun) as [Hheld Hsame].
      rewrite Hheld, <- Hs1. simpl.
      split; [done|]. intros Hc'. by rewrite Hsame.
    + injection Hstep as Hs1.
      assert (cancel s1 = true) as Hc1 by (by rewrite <- Hs1).
      simpl. split.
      * rewrite (poll_held_cancelled es s1 s' Hc1 Hrun). by rewrite <- Hs1.
      * intros Hc'.
        destruct (cancelled_run es s1 s' Hc1 Hrun) as (Hc2 & _).
        congruence.
Qed.

(** X27. At every moment of a poll session the held view is the one of the
    latest response that resolved before the cleanup, or the view the
    session started with when none has; rejected fetches in between and
    anything that resolves after the cleanup leave it as it is. *)
Theorem poll_held_view (view0 : option GameView) (es : list PollEvent)
    (s : PollState) :
  poll_run (poll_start view0) es = Some s →
  held s = last_resolved view0 (before_cleanup es).
Proof.
  intros Hrun.
  by destruct (poll_held_run es (poll_start view0) s eq_refl Hrun) as [-> _].
Qed.

Lemma poll_held_view_witness :
  ∃ s,
    poll_run (poll_start None)
      [Resolve Sample.lobby_of_three; TimerFires; Reject; TimerFires;
       Cleanup; Resolve (Sample.turn_of_p1 normal_team)] = Some s
    ∧ held s = Some Sample.lobby_of_three.
Proof.
  eexists. split; [reflexivity|].
  exact (poll_held_view None
           [Resolve Sample.lobby_of_three; TimerFires; Reject; TimerFires;
            Cleanup; Resolve (Sample.turn_of_p1 normal_team)] _ eq_refl).
Defined.

Lemma cancelled_run_measure (es : list PollEvent) (s s' : PollState) :
  cancel s = true → poll_run s es = Some s' →
  loop_events es + in_flight s' + 2 * length (timers s')
  = in_flight s + 2 * length (timers s).
Proof.
  revert s. induction es as [|e es IH]; intros s Hc Hrun; simpl in Hrun.
  - injection Hrun as <-. simpl. lia.
  - destruct (poll_step s e) as [s1|] eqn:Hstep; [|done].
    destruct (cancelled_step s s1 e Hc Hstep) as (Hc1 & _).
    specialize (IH s1 Hc1 Hrun).
    destruct s as [c h n ts f]. simpl in Hc. subst c.
    destruct e as [v| | |]; simpl in Hstep.
    + case_bool_decide; [|done]. injection Hstep as <-. simpl in *. lia.
    + case_bool_decide; [|done]. injection Hstep as <-. simpl in *. lia.
    + destruct ts as [|t ts]; [done|]. injection Hstep as <-. simpl in *.
      lia.
    + injection Hstep as <-. simpl in *. lia.
Qed.

(** X28. A stopped session dies out: after the cleanup at most two more
    events of the loop can happen (the pending timer firing, and the fetch
    it starts settling), and once none is pending none ever happens
    again. *)
Theorem poll_quiescence (view0 : option GameView) (es es' : list PollEvent)
    (s s' : PollState) :
  poll_run (poll_start view0) es = Some s →
  cancel s = true →
  poll_run s es' = Some s' →
  loop_events es' ≤ 2
  ∧ (in_flight s = 0 → timers s = [] → loop_events es' = 0).
Proof.
  intros Hrun Hc Hrun'.
  pose proof (poll_inv_run es _ s (poll_inv_start view0) Hrun) as Hinv.
  pose proof (cancelled_run_measure es' s s' Hc Hrun') as Hm.
  split.
  - destruct Hinv as [[Hn Ht] | [[Hn Ht] | (_ & Hn & Ht)]];
      rewrite Hn, Ht in Hm; simpl in Hm; lia.
  - intros Hn Ht. rewrite Hn, Ht in Hm. simpl in Hm. lia.
Qed.

Lemma poll_quiescence_witness :
  loop_events [TimerFires; Reject] ≤ 2.
Proof.
  refine (proj1 (poll_quiescence None [Reject; Cleanup]
                   [TimerFires; Reject]
                   {| cancel := true; held := None; in_flight := 0;
                      timers := [POLL_MS]; fetches := 1 |}
                   {| cancel := true; held := None; in_flight := 0;
                      timers := []; fetches := 2 |}
                   eq_refl eq_refl eq_refl)).
Defined.
